(** * ee-study-log: the blog backend of [1.py], embedded in Rocq

    A shallow embedding of the Flask application: the two filename helpers
    ([allowed_file], [get_file_type]), the [Post] model with its column
    defaults, and the three route handlers ([home], [new_post],
    [post_detail]) as state-passing functions over a world made of the
    [Post] table and the files on disk.

    Python [str] values are modelled as Rocq strings holding the UTF-8
    encoding of the text.  The byte [.] (46) never occurs inside a multi-byte
    UTF-8 sequence, so [rsplit('.', 1)] and ['.' in s] act on the bytes as
    they act on the code points.  [lower()] is modelled on the ASCII letters;
    the nine extensions the helpers compare against are ASCII and contain no
    letter that a non-ASCII code point lowers to, so membership of a lowered
    extension in those sets is the same in both readings. *)

From Stdlib Require Import Ascii String Sorting.Sorted.
From stdpp Require Import gmap strings list sorting.

Local Open Scope string_scope.

(** ** Python string primitives *)

Module Py.

(** Exceptions raised by the code under study, carrying [str(e)]. *)
Inductive exn :=
| IndexError (msg : string)
| OSError (msg : string)
| SQLAlchemyError (msg : string).

Definition str_exn (e : exn) : string :=
  match e with
  | IndexError m | OSError m | SQLAlchemyError m => m
  end.

(** The outcome of evaluating an expression that may raise. *)
Inductive result (A : Type) :=
| Ok (a : A)
| Raise (e : exn).
Arguments Ok {A} a.
Arguments Raise {A} e.

Definition dot : ascii := "."%char.

(** [c in s] for a one-character [c]. *)
Fixpoint contains (c : ascii) (s : string) : bool :=
  match s with
  | EmptyString => false
  | String a s' => if Ascii.eqb a c then true else contains c s'
  end.

(** The position-wise split behind [s.rsplit(c, 1)]: the text before and
    after the last occurrence of [c], or [None] when [c] does not occur. *)
Fixpoint rsplit_last (c : ascii) (s : string) : option (string * string) :=
  match s with
  | EmptyString => None
  | String a s' =>
      match rsplit_last c s' with
      | Some (before, after) => Some (String a before, after)
      | None => if Ascii.eqb a c then Some (EmptyString, s') else None
      end
  end.

(** [s.rsplit(c, 1)]: a list of one or two strings. *)
Definition rsplit1 (c : ascii) (s : string) : list string :=
  match rsplit_last c s with
  | Some (before, after) => [before; after]
  | None => [s]
  end.

(** [l[i]], raising [IndexError] out of range. *)
Definition index {A} (l : list A) (i : nat) : result A :=
  match l !! i with
  | Some x => Ok x
  | None => Raise (IndexError "list index out of range")
  end.

Definition lower_char (a : ascii) : ascii :=
  let n := nat_of_ascii a in
  if (65 <=? n)%nat && (n <=? 90)%nat then ascii_of_nat (n + 32) else a.

(** [s.lower()] *)
Fixpoint lower (s : string) : string :=
  match s with
  | EmptyString => EmptyString
  | String a s' => String (lower_char a) (lower s')
  end.

(** Truthiness of an optional string: [None] and [''] are falsy. *)
Definition truthy (o : option string) : bool :=
  match o with
  | Some (String _ _) => true
  | _ => false
  end.

End Py.

Import Py.

(** ** Helper functions of [1.py] *)

Definition ALLOWED_EXTENSIONS : gset string :=
  {[ "png"; "jpg"; "jpeg"; "gif"; "webp"; "mp4"; "mov"; "avi"; "webm" ]}.

(** [filename.rsplit('.', 1)[1].lower()], the expression shared by
    [allowed_file], [get_file_type] and line 99 of [new_post]. *)
Definition extension (filename : string) : result string :=
  match index (rsplit1 dot filename) 1 with
  | Ok e => Ok (lower e)
  | Raise e => Raise e
  end.

(** [allowed_file]: [and] short-circuits, so the subscript is evaluated only
    when the name holds a dot. *)
Definition allowed_file (filename : string) : result bool :=
  if contains dot filename then
    match extension filename with
    | Ok ext => Ok (bool_decide (ext ∈ ALLOWED_EXTENSIONS))
    | Raise e => Raise e
    end
  else Ok false.

Definition get_file_type (filename : string) : result string :=
  match extension filename with
  | Ok ext =>
      if bool_decide (ext ∈ ({[ "mp4"; "mov"; "avi"; "webm" ]} : gset string))
      then Ok "video"
      else Ok "image"
  | Raise e => Raise e
  end.

(** ** Library functions the handlers call *)

(** [werkzeug.utils.secure_filename] on a POSIX host ([os.sep = '/'], no
    [os.path.altsep]):
<<
    filename = unicodedata.normalize("NFKD", filename)
    filename = filename.encode("ascii", "ignore").decode("ascii")
    filename = filename.replace("/", " ")
    filename = re.sub(r"[^A-Za-z0-9_.-]", "", "_".join(filename.split())).strip("._")
>>
    The first two lines are the identity on ASCII text.  On other text this
    model drops the non-ASCII bytes and does not decompose them; the handlers
    below take the sanitiser as a parameter, and this model serves the
    concrete runs on ASCII names. *)
Module Werkzeug.

Definition is_ascii (a : ascii) : bool := (nat_of_ascii a <? 128)%nat.

(** [str.isspace] on the ASCII range. *)
Definition is_space (a : ascii) : bool :=
  let n := nat_of_ascii a in
  ((9 <=? n) && (n <=? 13) || (28 <=? n) && (n <=? 32))%nat.

(** The complement of the character class [[^A-Za-z0-9_.-]]. *)
Definition is_safe (a : ascii) : bool :=
  let n := nat_of_ascii a in
  ((65 <=? n) && (n <=? 90) || (97 <=? n) && (n <=? 122)
   || (48 <=? n) && (n <=? 57)
   || (n =? 95) || (n =? 46) || (n =? 45))%nat.

Fixpoint filter_chars (keep : ascii -> bool) (s : string) : string :=
  match s with
  | EmptyString => EmptyString
  | String a s' =>
      if keep a then String a (filter_chars keep s') else filter_chars keep s'
  end.

(** [s.replace(c, d)] for one-character [c] and [d]. *)
Fixpoint replace_char (c d : ascii) (s : string) : string :=
  match s with
  | EmptyString => EmptyString
  | String a s' =>
      String (if Ascii.eqb a c then d else a) (replace_char c d s')
  end.

(** [s.split()]: the maximal runs of non-whitespace; [word] is the run
    being read. *)
Fixpoint split_from (word s : string) : list string :=
  match s with
  | EmptyString =>
      match word with EmptyString => [] | _ => [word] end
  | String a s' =>
      if is_space a then
        match word with
        | EmptyString => split_from EmptyString s'
        | _ => word :: split_from EmptyString s'
        end
      else split_from (word ++ String a EmptyString) s'
  end.

Definition split (s : string) : list string := split_from EmptyString s.

(** [sep.join(l)] *)
Fixpoint join (sep : string) (l : list string) : string :=
  match l with
  | [] => EmptyString
  | [x] => x
  | x :: l' => x ++ sep ++ join sep l'
  end.

Definition strip_char (a : ascii) : bool :=
  Ascii.eqb a "."%char || Ascii.eqb a "_"%char.

Fixpoint lstrip (s : string) : string :=
  match s with
  | EmptyString => EmptyString
  | String a s' => if strip_char a then lstrip s' else s
  end.

Fixpoint rstrip (s : string) : string :=
  match s with
  | EmptyString => EmptyString
  | String a s' =>
      match rstrip s' with
      | EmptyString => if strip_char a then EmptyString else String a EmptyString
      | r => String a r
      end
  end.

(** [s.strip("._")] *)
Definition strip (s : string) : string := rstrip (lstrip s).

Definition secure_filename (filename : string) : string :=
  let filename := filter_chars is_ascii filename in
  let filename := replace_char "/"%char " "%char filename in
  strip (filter_chars is_safe (join "_" (split filename))).

End Werkzeug.

(** [posixpath.join(a, b)]:
<<
    if b.startswith('/'): path = b
    elif not path or path.endswith('/'): path += b
    else: path += '/' + b
>> *)
Fixpoint endswith_char (c : ascii) (s : string) : bool :=
  match s with
  | EmptyString => false
  | String a EmptyString => Ascii.eqb a c
  | String _ s' => endswith_char c s'
  end.

Definition startswith_char (c : ascii) (s : string) : bool :=
  match s with
  | String a _ => Ascii.eqb a c
  | EmptyString => false
  end.

Definition os_path_join (a b : string) : string :=
  if startswith_char "/" b then b
  else if negb (truthy (Some a)) || endswith_char "/" a then a ++ b
  else a ++ "/" ++ b.

(** [uuid.uuid4().hex[:8]]: [hex] is ['%032x' % self.int], the 32 nibbles of
    the 128-bit integer from the most significant down. *)
Module Uuid.

Definition hex_digit (n : N) : ascii :=
  match n with
  | 0 => "0" | 1 => "1" | 2 => "2" | 3 => "3" | 4 => "4" | 5 => "5"
  | 6 => "6" | 7 => "7" | 8 => "8" | 9 => "9" | 10 => "a" | 11 => "b"
  | 12 => "c" | 13 => "d" | 14 => "e" | _ => "f"
  end%N%char.

Definition nibble (u : N) (i : nat) : N :=
  N.land (N.shiftr u (4 * N.of_nat (31 - i))) 15.

Definition hex (u : N) : string :=
  string_of_list_ascii (map (fun i => hex_digit (nibble u i)) (seq 0 32)).

Definition hex8 (u : N) : string := String.substring 0 8 (hex u).

Global Arguments nibble : simpl never.
Global Arguments hex8 : simpl never.

End Uuid.

(** ** The [Post] model and the world the handlers act on *)

(** A row of the [post] table.  [post_id] is the column [id]. *)
Record Post := {
  post_id : nat;
  title : string;
  topic : string;
  content_markdown : option string;
  date_posted : Z;
  media_type : option string;
  media_filename : option string
}.

(** The keyword arguments of the constructor call [Post(...)] in
    [new_post]; a Python [None] is [None]. *)
Record PostInit := {
  init_title : option string;
  init_topic : option string;
  init_content_markdown : option string;
  init_media_type : option string;
  init_media_filename : option string
}.

(** [default='生活'] of the column [topic]. *)
Definition TOPIC_DEFAULT : string := "生活".

(** The table (rows in insertion order) and the files on disk (path to
    contents). *)
Record world := {
  posts : list Post;
  disk : gmap string (list Byte.byte)
}.

(** An uploaded part, werkzeug's [FileStorage]. *)
Record FileStorage := {
  filename : string;
  stream : list Byte.byte
}.

Inductive http_method := GET | POST.

Record request := {
  method : http_method;
  form : gmap string string;
  files : gmap string FileStorage
}.

(** What the surroundings supply during one request: the integer of the
    UUID drawn by [uuid.uuid4()], the clock read by [datetime.utcnow], and
    whether [file.save] and [db.session.commit] fail (with the message of the
    exception they raise). *)
Record environ := {
  uuid4 : N;
  utcnow : Z;
  save_error : option string;
  commit_error : option string
}.

(** ** A state and exception monad for the handler bodies *)

Definition M (A : Type) : Type := world -> result A * world.

Definition ret {A} (a : A) : M A := fun w => (Ok a, w).

Definition raise {A} (e : exn) : M A := fun w => (Raise e, w).

Definition bind {A B} (c : M A) (k : A -> M B) : M B :=
  fun w =>
    match c w with
    | (Ok a, w') => k a w'
    | (Raise e, w') => (Raise e, w')
    end.

(** Evaluate a pure expression that may raise. *)
Definition lift {A} (r : result A) : M A := fun w => (r, w).

(** [try: body  except Exception as e: handler(e)]; the effects the body had
    before raising stay. *)
Definition try_except {A} (body : M A) (handler : exn -> M A) : M A :=
  fun w =>
    match body w with
    | (Ok a, w') => (Ok a, w')
    | (Raise e, w') => handler e w'
    end.

Notation "x <- c ; k" := (bind c (fun x => k))
  (at level 20, c at level 100, k at level 200, only parsing).

Notation "'exec' c ; k" := (bind c (fun _ => k))
  (at level 20, c at level 100, k at level 200, only parsing).

(** ** Views *)

Inductive context :=
| ctx_posts (posts : list Post)
| ctx_error (error : option string)
| ctx_detail (post : Post) (content_html : string).

Inductive response :=
| render_template (template : string) (ctx : context)
| redirect (location : string)
| abort (code : nat).

Definition status_code (r : response) : nat :=
  match r with
  | render_template _ _ => 200
  | redirect _ => 302
  | abort code => code
  end.

(** [url_for] over the three routes of the application. *)
Definition url_for (endpoint : string) : string :=
  if String.eqb endpoint "home" then "/"
  else if String.eqb endpoint "new_post" then "/new"
  else "".

Definition UPLOAD_FOLDER : string := os_path_join "static" "uploads".

(** ** Storage and file operations *)

(** The integer primary key handed out by the store: one above the largest
    [id] in the table. *)
Definition next_id (table : list Post) : nat :=
  S (foldr Nat.max 0%nat (map post_id table)).

(** [db.session.add(new_post); db.session.commit()].  The insert
    leaves out the attributes that are [None], so a column default fills
    them: [topic] gets ['生活'], [date_posted] gets [datetime.utcnow()];
    [title] is [nullable=False] without a default. *)
Definition db_session_add_commit (env : environ) (new_post : PostInit) : M unit :=
  fun w =>
    match commit_error env with
    | Some msg => (Raise (SQLAlchemyError msg), w)
    | None =>
        match init_title new_post with
        | None => (Raise (SQLAlchemyError "NOT NULL constraint failed: post.title"), w)
        | Some t =>
            let row :=
              {| post_id := next_id (posts w);
                 title := t;
                 topic := default TOPIC_DEFAULT (init_topic new_post);
                 content_markdown := init_content_markdown new_post;
                 date_posted := utcnow env;
                 media_type := init_media_type new_post;
                 media_filename := init_media_filename new_post |} in
            (Ok tt, {| posts := posts w ++ [row]; disk := disk w |})
        end
    end.

(** [db.session.get(Post, post_id)]: the row with that key, or [None]. *)
Definition db_session_get (w : world) (key : nat) : option Post :=
  List.find (fun p => Nat.eqb (post_id p) key) (posts w).

(** Newest first: the order of [Post.date_posted.desc()]. *)
Definition date_desc (p q : Post) : Prop := (date_posted q <= date_posted p)%Z.

#[local] Instance date_desc_dec (p q : Post) : Decision (date_desc p q).
Proof. unfold date_desc. apply _. Defined.

(** [Post.query.order_by(Post.date_posted.desc()).all()]; rows with equal
    timestamps come out in an order the store chooses, here the one of a
    stable merge sort. *)
Definition query_order_by_date_posted_desc (w : world) : list Post :=
  merge_sort date_desc (posts w).

(** [file.save(save_path)] *)
Definition file_save (env : environ) (file : FileStorage) (save_path : string) : M unit :=
  fun w =>
    match save_error env with
    | Some msg => (Raise (OSError msg), w)
    | None =>
        (Ok tt, {| posts := posts w; disk := <[save_path := stream file]> (disk w) |})
    end.

(** ** Route handlers *)

Definition VALIDATION_MESSAGE : string :=
  "请至少填写标题，并输入内容或上传文件。".

Definition FAILURE_PREFIX : string := "发布失败: ".

Section Handlers.

(** The two imported functions the handlers call. *)
Variable secure_filename : string -> string.
Variable markdown : string -> string.

(** [home] *)
Definition home (w : world) : response :=
  let posts := query_order_by_date_posted_desc w in
  render_template "index.html" (ctx_posts posts).

(** Lines 89 to 108 of [new_post]: the pair [(media_type, media_filename)]
    after the upload block. *)
Definition process_upload (req : request) (env : environ)
  : M (option string * option string) :=
  match files req !! "media_file" with
  | Some file =>
      accepted <-
        (if truthy (Some (filename file))
            && negb (String.eqb (filename file) "")
         then lift (allowed_file (filename file))
         else ret false) ;
      if (accepted : bool) then
        let original_filename := secure_filename (filename file) in
        file_ext <- lift (extension original_filename) ;
        let unique_name :=
          Uuid.hex8 (uuid4 env) ++ "_" ++ original_filename in
        let save_path := os_path_join UPLOAD_FOLDER unique_name in
        exec file_save env file save_path ;
        let media_filename := unique_name in
        media_type <- lift (get_file_type unique_name) ;
        ret (Some media_type, Some media_filename)
      else ret (None, None)
  | None => ret (None, None)
  end.

(** The body of the [try] block. *)
Definition new_post_body (req : request) (env : environ) : M response :=
  let title := form req !! "title" in
  let topic := form req !! "topic" in
  let content := form req !! "content" in
  media <- process_upload req env ;
  let '(media_type, media_filename) := media in
  if truthy title && (truthy content || truthy media_filename) then
    exec db_session_add_commit env
           {| init_title := title;
              init_topic := topic;
              init_content_markdown := content;
              init_media_type := media_type;
              init_media_filename := media_filename |} ;
    ret (redirect (url_for "home"))
  else
    ret (render_template "new_post.html" (ctx_error (Some VALIDATION_MESSAGE))).

(** [new_post], run to completion: the response and the world it leaves. *)
Definition new_post (req : request) (env : environ) (w : world)
  : response * world :=
  match method req with
  | POST =>
      match new_post_body req env w with
      | (Ok resp, w') => (resp, w')
      | (Raise e, w') =>
          (render_template "new_post.html"
             (ctx_error (Some (FAILURE_PREFIX ++ str_exn e))), w')
      end
  | GET => (render_template "new_post.html" (ctx_error None), w)
  end.

(** [post_detail] *)
Definition post_detail (key : nat) (w : world) : response :=
  match db_session_get w key with
  | None => abort 404
  | Some post =>
      let content_html :=
        if truthy (content_markdown post)
        then markdown (default "" (content_markdown post))
        else "" in
      render_template "detail.html" (ctx_detail post content_html)
  end.

End Handlers.

(** The two classes of extensions named by the specification. *)
Definition image_extensions : gset string :=
  {[ "png"; "jpg"; "jpeg"; "gif"; "webp" ]}.

Definition video_extensions : gset string :=
  {[ "mp4"; "mov"; "avi"; "webm" ]}.


(** ** Predicates used to state the properties *)

(** The request carries a part [media_file] whose raw name passes
    [allowed_file]: the condition of line 96 ([allowed_file] accepts no empty
    name, so the two tests before it are implied). *)
Definition upload_accepted (req : request) : bool :=
  match files req !! "media_file" with
  | Some file =>
      match allowed_file (filename file) with
      | Ok true => true
      | _ => false
      end
  | None => false
  end.

(** No media submitted: no part [media_file], or one with an empty name (what
    a browser sends for an empty file input). *)
Definition no_media_submitted (req : request) : bool :=
  match files req !! "media_file" with
  | Some file => String.eqb (filename file) ""
  | None => true
  end.

(** The request breaks the rule of line 112: no title, or neither content
    nor an accepted upload. *)
Definition violates_invariant (req : request) : Prop :=
  truthy (form req !! "title") = false
  \/ (truthy (form req !! "content") = false /\ upload_accepted req = false).

(** Rejection with the validation message and no effect at all. *)
Definition rejected_without_effect
    (resp : response) (w w' : world) : Prop :=
  resp = render_template "new_post.html" (ctx_error (Some VALIDATION_MESSAGE))
  /\ posts w' = posts w
  /\ disk w' = disk w.

(** [media_type] and [media_filename] are both set or both unset. *)
Definition media_paired (p : Post) : Prop :=
  media_type p = None <-> media_filename p = None.

(** The name [new_post] stores an upload under (line 100) and the path it
    writes (line 103). *)
Definition unique_name
    (secure_filename : string -> string) (env : environ) (file : FileStorage)
  : string :=
  Uuid.hex8 (uuid4 env) ++ "_" ++ secure_filename (filename file).

Definition save_path
    (secure_filename : string -> string) (env : environ) (file : FileStorage)
  : string :=
  "static/uploads/" ++ unique_name secure_filename env file.

Definition is_hex_char (a : ascii) : bool :=
  let n := nat_of_ascii a in
  ((48 <=? n) && (n <=? 57) || (97 <=? n) && (n <=? 102))%nat.

Fixpoint string_forall (p : ascii -> bool) (s : string) : bool :=
  match s with
  | EmptyString => true
  | String a s' => p a && string_forall p s'
  end.

(** The pages and the row [new_post] produces. *)
Definition failure_page (e : exn) : response :=
  render_template "new_post.html" (ctx_error (Some (FAILURE_PREFIX ++ str_exn e))).

Definition validation_page : response :=
  render_template "new_post.html" (ctx_error (Some VALIDATION_MESSAGE)).

(** The row a successful commit appends. *)
Definition inserted_row
    (req : request) (env : environ) (table : list Post)
    (title : string) (media_type media_filename : option string) : Post :=
  {| post_id := next_id table;
     title := title;
     topic := default TOPIC_DEFAULT (form req !! "topic");
     content_markdown := form req !! "content";
     date_posted := utcnow env;
     media_type := media_type;
     media_filename := media_filename |}.

(** The world after [file.save] wrote the upload. *)
Definition saved
    (secure_filename : string -> string) (env : environ) (file : FileStorage)
    (w : world) : world :=
  {| posts := posts w;
     disk := <[save_path secure_filename env file := stream file]> (disk w) |}.

(** [get_file_type] as a function of the lowered extension. *)
Definition type_of_extension (ext : string) : string :=
  if bool_decide (ext ∈ video_extensions) then "video" else "image".

(** ** Sample data for the concrete runs *)

Definition empty_world : world := {| posts := []; disk := ∅ |}.

Definition sample_environ : environ :=
  {| uuid4 := 0xdeadbeef0123456789abcdef01234567;
     utcnow := 1700000000;
     save_error := None;
     commit_error := None |}.

Definition sample_file (name : string) : FileStorage :=
  {| filename := name; stream := [Byte.x89; Byte.x50; Byte.x4e; Byte.x47] |}.

Definition post_request
    (fields : list (string * string)) (upload : option FileStorage) : request :=
  {| method := POST;
     form := list_to_map fields;
     files := match upload with
              | Some file => {[ "media_file" := file ]}
              | None => ∅
              end |}.

Definition sample_post (key : nat) (when : Z) : Post :=
  {| post_id := key;
     title := "note";
     topic := TOPIC_DEFAULT;
     content_markdown := Some "text";
     date_posted := when;
     media_type := None;
     media_filename := None |}.

Definition three_posts : world :=
  {| posts := [sample_post 1 20; sample_post 2 30; sample_post 3 10];
     disk := ∅ |}.

(** A stand-in for the renderer [markdown.markdown] in the concrete runs. *)
Definition sample_markdown (text : string) : string := "<p>" ++ text ++ "</p>".
(** * Properties *)

(** ** The library models on known inputs *)

Example secure_passwd :
  Werkzeug.secure_filename "../../etc/passwd.png" = "etc_passwd.png".
Proof. vm_compute. reflexivity. Qed.

Example secure_movie :
  Werkzeug.secure_filename "My cool movie.mov" = "My_cool_movie.mov".
Proof. vm_compute. reflexivity. Qed.

Example hex8_deadbeef :
  Uuid.hex8 0xdeadbeef0123456789abcdef01234567 = "deadbeef".
Proof. vm_compute. reflexivity. Qed.

Example join_upload :
  os_path_join "static" "uploads" = "static/uploads".
Proof. vm_compute. reflexivity. Qed.

(** ** Facts about the string primitives *)

Section StringFacts.

Lemma rsplit_last_none c s :
  rsplit_last c s = None <-> contains c s = false.
Proof.
  induction s as [|a s IH]; simpl; [done|].
  destruct (rsplit_last c s) as [[before after]|].
  - split; [done|]. destruct (Ascii.eqb a c); [done|].
    intros H. apply IH in H. done.
  - destruct (Ascii.eqb a c); [done|]. split; [|done].
    intros _. by apply IH.
Qed.

Lemma rsplit_last_some c s before after :
  rsplit_last c s = Some (before, after) ->
  s = before ++ String c after /\ contains c after = false.
Proof.
  revert before. induction s as [|a s IH]; intros before; simpl; [done|].
  destruct (rsplit_last c s) as [[b' a']|] eqn:E.
  - intros [= <- <-]. destruct (IH b' eq_refl) as [-> Hn]. done.
  - destruct (Ascii.eqb a c) eqn:Eac; [|done].
    intros [= <- <-]. apply Ascii.eqb_eq in Eac as ->.
    split; [done|]. by apply rsplit_last_none.
Qed.

Lemma rsplit_last_app c before after :
  contains c after = false ->
  rsplit_last c (before ++ String c after) = Some (before, after).
Proof.
  intros Hn. induction before as [|a b IH]; simpl.
  - apply rsplit_last_none in Hn. rewrite Hn, Ascii.eqb_refl. done.
  - rewrite IH. done.
Qed.

Lemma contains_app c before after :
  contains c (before ++ String c after) = true.
Proof.
  induction before as [|a b IH]; simpl.
  - by rewrite Ascii.eqb_refl.
  - by destruct (Ascii.eqb a c).
Qed.

Lemma lower_char_dot a : Ascii.eqb (lower_char a) dot = Ascii.eqb a dot.
Proof. destruct a as [[] [] [] [] [] [] [] []]; reflexivity. Qed.

Lemma contains_dot_lower s : contains dot (lower s) = contains dot s.
Proof.
  induction s as [|a s IH]; simpl; [done|].
  by rewrite lower_char_dot, IH.
Qed.

End StringFacts.

(** ** The extension of a file name *)

Lemma extension_split base ext :
  contains dot ext = false ->
  extension (base ++ "." ++ ext) = Ok (lower ext).
Proof.
  intros Hn. unfold extension, rsplit1.
  change (base ++ "." ++ ext) with (base ++ String dot ext).
  by rewrite rsplit_last_app.
Qed.

Lemma extension_no_dot filename :
  contains dot filename = false ->
  extension filename = Raise (IndexError "list index out of range").
Proof.
  intros Hn. apply rsplit_last_none in Hn.
  unfold extension, rsplit1. by rewrite Hn.
Qed.

Lemma extension_dot filename :
  contains dot filename = true ->
  exists base ext,
    filename = base ++ "." ++ ext /\ contains dot ext = false
    /\ extension filename = Ok (lower ext).
Proof.
  intros Hc. destruct (rsplit_last dot filename) as [[base ext]|] eqn:E.
  - apply rsplit_last_some in E as [-> Hn]. exists base, ext.
    split; [done|]. split; [done|]. by apply extension_split.
  - apply rsplit_last_none in E. congruence.
Qed.

Lemma allowed_file_split base ext :
  contains dot ext = false ->
  allowed_file (base ++ "." ++ ext)
  = Ok (bool_decide (lower ext ∈ ALLOWED_EXTENSIONS)).
Proof.
  intros Hn. unfold allowed_file.
  change (base ++ "." ++ ext) with (base ++ String dot ext) at 1.
  by rewrite contains_app, extension_split.
Qed.

Lemma allowed_file_total filename : exists b, allowed_file filename = Ok b.
Proof.
  unfold allowed_file. destruct (contains dot filename) eqn:Hc; [|by eexists].
  destruct (extension_dot _ Hc) as (base & ext & _ & _ & ->). by eexists.
Qed.

Lemma allowed_file_true filename :
  allowed_file filename = Ok true ->
  exists base ext,
    filename = base ++ "." ++ ext /\ contains dot ext = false
    /\ lower ext ∈ ALLOWED_EXTENSIONS.
Proof.
  unfold allowed_file. destruct (contains dot filename) eqn:Hc; [|done].
  destruct (extension_dot _ Hc) as (base & ext & Hf & Hn & ->).
  intros [= Hb]. apply bool_decide_eq_true in Hb. by exists base, ext.
Qed.

(** ** Classification of media by extension *)

Lemma allowed_is_image_or_video e :
  e ∈ ALLOWED_EXTENSIONS <-> e ∈ image_extensions \/ e ∈ video_extensions.
Proof.
  unfold ALLOWED_EXTENSIONS, image_extensions, video_extensions.
  set_unfold. tauto.
Qed.

Lemma image_not_video e : e ∈ image_extensions -> e ∉ video_extensions.
Proof.
  unfold image_extensions, video_extensions. set_unfold.
  intros H1 H2. repeat destruct H1 as [H1|H1]; subst;
    repeat destruct H2 as [H2|H2]; discriminate.
Qed.

Lemma get_file_type_split base ext :
  contains dot ext = false ->
  get_file_type (base ++ "." ++ ext)
  = if bool_decide (lower ext ∈ video_extensions) then Ok "video" else Ok "image".
Proof. intros Hn. unfold get_file_type. by rewrite extension_split. Qed.

Lemma process_upload_rejected secure_filename req env w file :
  files req !! "media_file" = Some file ->
  allowed_file (filename file) = Ok false ->
  process_upload secure_filename req env w = (Ok (None, None), w).
Proof.
  intros Hf Ha. unfold process_upload. rewrite Hf. unfold bind, lift, ret.
  destruct (truthy _ && negb _); [by rewrite Ha|done].
Qed.

(** C2.  A file name [base.ext] whose extension (the text after the last
    dot), lowered, is one of png, jpg, jpeg, gif, webp is accepted and typed
    image; one of mp4, mov, avi, webm is accepted and typed video; with any
    other extension, or with no dot at all, [allowed_file] answers false, and
    the upload block of [new_post] then stores nothing and leaves both media
    fields unset. *)
Theorem media_classification_exact :
  (forall base ext, contains dot ext = false ->
     (lower ext ∈ image_extensions ->
        allowed_file (base ++ "." ++ ext) = Ok true
        /\ get_file_type (base ++ "." ++ ext) = Ok "image")
     /\ (lower ext ∈ video_extensions ->
        allowed_file (base ++ "." ++ ext) = Ok true
        /\ get_file_type (base ++ "." ++ ext) = Ok "video")
     /\ (lower ext ∉ image_extensions -> lower ext ∉ video_extensions ->
        allowed_file (base ++ "." ++ ext) = Ok false))
  /\ (forall filename, contains dot filename = false ->
        allowed_file filename = Ok false)
  /\ (forall secure_filename req env w file,
        files req !! "media_file" = Some file ->
        allowed_file (filename file) = Ok false ->
        process_upload secure_filename req env w = (Ok (None, None), w)).
Proof.
  split; [|split].
  - intros base ext Hn.
    rewrite allowed_file_split, get_file_type_split by done.
    split; [|split].
    + intros Hi. split.
      * rewrite bool_decide_eq_true_2; [done|].
        apply allowed_is_image_or_video. by left.
      * rewrite bool_decide_eq_false_2; [done|]. by apply image_not_video.
    + intros Hv. split.
      * rewrite bool_decide_eq_true_2; [done|].
        apply allowed_is_image_or_video. by right.
      * by rewrite bool_decide_eq_true_2.
    + intros Hi Hv. rewrite bool_decide_eq_false_2; [done|].
      intros [?|?]%allowed_is_image_or_video; done.
  - intros filename Hn. unfold allowed_file. by rewrite Hn.
  - apply process_upload_rejected.
Qed.

(** The classification at work on four names. *)
Lemma media_classification_exact_witness :
  (allowed_file "cat.jpeg" = Ok true /\ get_file_type "cat.jpeg" = Ok "image")
  /\ (allowed_file "clip.webm" = Ok true /\ get_file_type "clip.webm" = Ok "video")
  /\ allowed_file "notes.txt" = Ok false
  /\ allowed_file "README" = Ok false.
Proof.
  destruct media_classification_exact as (Hext & Hnone & _).
  split; [|split; [|split]].
  - apply (Hext "cat" "jpeg"); [reflexivity|]. vm_compute. reflexivity.
  - apply (Hext "clip" "webm"); [reflexivity|]. vm_compute. reflexivity.
  - apply (Hext "notes" "txt"); [reflexivity| |]; vm_compute; intros H; discriminate H.
  - apply Hnone. reflexivity.
Defined.

(** C9.  [get_file_type] raises [IndexError] exactly on the names without a
    dot; on every name with a dot it returns, and returns image whenever the
    lowered extension is outside mp4, mov, avi, webm, allowed or not; on the
    names [allowed_file] accepts it therefore returns image or video.
    [allowed_file] itself never raises. *)
Theorem get_file_type_domain :
  (forall filename,
     contains dot filename = false <->
     get_file_type filename = Raise (IndexError "list index out of range"))
  /\ (forall filename, allowed_file filename = Ok true ->
        get_file_type filename = Ok "image"
        \/ get_file_type filename = Ok "video")
  /\ (forall base ext, contains dot ext = false ->
        lower ext ∉ video_extensions ->
        get_file_type (base ++ "." ++ ext) = Ok "image")
  /\ (forall filename, exists b, allowed_file filename = Ok b)
  /\ (get_file_type "setup.exe" = Ok "image"
      /\ allowed_file "setup.exe" = Ok false).
Proof.
  split; [|split; [|split; [|split]]].
  - intros filename. split.
    + intros Hn. unfold get_file_type. by rewrite extension_no_dot.
    + intros Hr. destruct (contains dot filename) eqn:Hc; [|done].
      destruct (extension_dot _ Hc) as (base & ext & _ & _ & He).
      unfold get_file_type in Hr. rewrite He in Hr.
      by destruct (bool_decide _).
  - intros filename (base & ext & -> & Hn & _)%allowed_file_true.
    rewrite get_file_type_split by done.
    destruct (bool_decide _); [by right|by left].
  - intros base ext Hn Hv. rewrite get_file_type_split by done.
    by rewrite bool_decide_eq_false_2.
  - apply allowed_file_total.
  - split; vm_compute; reflexivity.
Qed.

Lemma get_file_type_domain_witness :
  get_file_type "README" = Raise (IndexError "list index out of range")
  /\ (get_file_type "a.gif" = Ok "image" \/ get_file_type "a.gif" = Ok "video")
  /\ get_file_type ("archive" ++ "." ++ "zip") = Ok "image".
Proof.
  destruct get_file_type_domain as (Hraise & Hallowed & Himage & _).
  split; [|split].
  - apply Hraise. reflexivity.
  - apply Hallowed. vm_compute. reflexivity.
  - apply Himage; [reflexivity|]. vm_compute. intros H; discriminate H.
Defined.

(** C10.  Two names that differ only in the letter case of the extension get
    the same answer from [allowed_file] and from [get_file_type];
    [PHOTO.PNG] is accepted as an image and [MOVIE.MP4] as a video. *)
Theorem extension_case_insensitive :
  (forall base ext1 ext2,
     contains dot ext1 = false -> lower ext1 = lower ext2 ->
     allowed_file (base ++ "." ++ ext1) = allowed_file (base ++ "." ++ ext2)
     /\ get_file_type (base ++ "." ++ ext1) = get_file_type (base ++ "." ++ ext2))
  /\ (allowed_file "PHOTO.PNG" = Ok true /\ get_file_type "PHOTO.PNG" = Ok "image")
  /\ (allowed_file "MOVIE.MP4" = Ok true /\ get_file_type "MOVIE.MP4" = Ok "video").
Proof.
  split.
  - intros base ext1 ext2 Hn Hl.
    assert (contains dot ext2 = false) as Hn2.
    { rewrite <- contains_dot_lower, <- Hl, contains_dot_lower. done. }
    rewrite !allowed_file_split, !get_file_type_split by done.
    by rewrite Hl.
  - repeat split; vm_compute; reflexivity.
Qed.

Lemma extension_case_insensitive_witness :
  allowed_file ("holiday" ++ "." ++ "JpEg") = allowed_file ("holiday" ++ "." ++ "jpeg")
  /\ get_file_type ("holiday" ++ "." ++ "JpEg") = get_file_type ("holiday" ++ "." ++ "jpeg").
Proof.
  destruct extension_case_insensitive as (Hcase & _).
  apply Hcase; reflexivity.
Defined.

(** ** Point lookup and the detail page *)

Lemma db_session_get_missing w key :
  (forall p, p ∈ posts w -> post_id p <> key) ->
  db_session_get w key = None.
Proof.
  intros Hmiss. unfold db_session_get.
  destruct (List.find _ _) as [p|] eqn:Hfind; [|done].
  apply List.find_some in Hfind as [Hin Heq].
  apply Nat.eqb_eq in Heq. apply list_elem_of_In in Hin.
  by destruct (Hmiss p Hin).
Qed.

Lemma db_session_get_found w key p :
  db_session_get w key = Some p -> p ∈ posts w /\ post_id p = key.
Proof.
  unfold db_session_get. intros [Hin Heq]%List.find_some.
  apply Nat.eqb_eq in Heq. by apply list_elem_of_In in Hin.
Qed.

(** C5.  When no row has the requested id, the lookup returns [None] (it is
    a total function into an option, there is no raising case) and
    [post_detail] answers with [abort(404)], a response of status 404. *)
Theorem post_detail_missing_is_404 markdown w key :
  (forall p, p ∈ posts w -> post_id p <> key) ->
  db_session_get w key = None
  /\ post_detail markdown key w = abort 404
  /\ status_code (post_detail markdown key w) = 404%nat.
Proof.
  intros Hmiss. pose proof (db_session_get_missing w key Hmiss) as Hget.
  unfold post_detail. rewrite Hget. done.
Qed.

(** ** Listing *)

#[local] Instance date_desc_trans : Transitive date_desc.
Proof. unfold date_desc. intros p q r Hpq Hqr. lia. Qed.

#[local] Instance date_desc_total : Total date_desc.
Proof. unfold date_desc. intros p q. lia. Qed.

Lemma listing_sorted w :
  StronglySorted date_desc (query_order_by_date_posted_desc w).
Proof. apply StronglySorted_merge_sort; apply _. Qed.

Lemma listing_permutation w :
  query_order_by_date_posted_desc w ≡ₚ posts w.
Proof. apply merge_sort_Permutation. Qed.

(** C6.  The listing holds exactly the stored rows, newest first; a table
    made of three posts with timestamps [t1 < t2 < t3], whatever their order
    of insertion, is listed as the posts of [t3], [t2], [t1]. *)
Theorem home_lists_newest_first :
  (forall w,
     home w = render_template "index.html"
                (ctx_posts (query_order_by_date_posted_desc w))
     /\ query_order_by_date_posted_desc w ≡ₚ posts w
     /\ StronglySorted date_desc (query_order_by_date_posted_desc w))
  /\ (forall w p1 p2 p3,
        posts w ≡ₚ [p1; p2; p3] ->
        (date_posted p1 < date_posted p2)%Z ->
        (date_posted p2 < date_posted p3)%Z ->
        home w = render_template "index.html" (ctx_posts [p3; p2; p1])).
Proof.
  split.
  - intros w. split; [done|]. split; [apply listing_permutation|apply listing_sorted].
  - intros w p1 p2 p3 Hperm H12 H23. unfold home. do 2 f_equal.
    apply (StronglySorted_unique_strong date_desc).
    + intros x y Hx Hy Hxy Hyx. unfold date_desc in *.
      rewrite listing_permutation, Hperm in Hx.
      set_unfold. destruct Hx as [?|[?|[?|[]]]], Hy as [?|[?|[?|[]]]]; subst;
        first [done | lia].
    + apply listing_sorted.
    + unfold date_desc. repeat constructor; lia.
    + rewrite listing_permutation, Hperm.
      exact (Permutation_rev [p1; p2; p3]).
Qed.

Lemma post_detail_missing_is_404_witness :
  db_session_get three_posts 9999 = None
  /\ post_detail sample_markdown 9999 three_posts = abort 404
  /\ status_code (post_detail sample_markdown 9999 three_posts) = 404%nat.
Proof.
  apply post_detail_missing_is_404.
  intros p Hp. unfold three_posts in Hp. simpl in Hp. set_unfold.
  destruct Hp as [?|[?|[?|[]]]]; subst p; apply Nat.eqb_neq; vm_compute; reflexivity.
Defined.

Lemma home_lists_newest_first_witness :
  home three_posts
  = render_template "index.html"
      (ctx_posts [sample_post 2 30; sample_post 1 20; sample_post 3 10]).
Proof.
  destruct home_lists_newest_first as (_ & Horder).
  apply (Horder three_posts (sample_post 3 10) (sample_post 1 20) (sample_post 2 30)).
  - unfold three_posts. simpl.
    exact (Permutation_sym (Permutation_cons_append [sample_post 1 20; sample_post 2 30] (sample_post 3 10))).
  - simpl. lia.
  - simpl. lia.
Defined.

(** ** The upload block of [new_post] *)

Lemma hex_digit_is_hex n : is_hex_char (Uuid.hex_digit n) = true.
Proof.
  destruct n as [|p]; [reflexivity|].
  do 5 (try destruct p as [p|p|]); reflexivity.
Qed.

Lemma hex8_unfold u :
  Uuid.hex8 u =
  String (Uuid.hex_digit (Uuid.nibble u 0)) (String (Uuid.hex_digit (Uuid.nibble u 1))
  (String (Uuid.hex_digit (Uuid.nibble u 2)) (String (Uuid.hex_digit (Uuid.nibble u 3))
  (String (Uuid.hex_digit (Uuid.nibble u 4)) (String (Uuid.hex_digit (Uuid.nibble u 5))
  (String (Uuid.hex_digit (Uuid.nibble u 6)) (String (Uuid.hex_digit (Uuid.nibble u 7))
  EmptyString))))))).
Proof.
  unfold Uuid.hex8, Uuid.hex.
  cbv [seq map string_of_list_ascii String.substring]. reflexivity.
Qed.

Lemma hex8_shape u :
  String.length (Uuid.hex8 u) = 8%nat
  /\ string_forall is_hex_char (Uuid.hex8 u) = true.
Proof.
  rewrite hex8_unfold. split; [reflexivity|].
  cbn [string_forall]. rewrite !hex_digit_is_hex. reflexivity.
Qed.

Lemma string_forall_app p s t :
  string_forall p (s ++ t) = string_forall p s && string_forall p t.
Proof.
  induction s as [|a s IH]; simpl; [done|].
  rewrite IH. by destruct (p a).
Qed.

Lemma contains_app_or c s t :
  contains c (s ++ t) = contains c s || contains c t.
Proof.
  induction s as [|a s IH]; simpl; [done|].
  by destruct (Ascii.eqb a c).
Qed.

Lemma contains_forall c p s :
  p c = false -> string_forall p s = true -> contains c s = false.
Proof.
  intros Hc. induction s as [|a s IH]; simpl; [done|].
  intros [Ha Hs]%andb_true_iff.
  destruct (Ascii.eqb a c) eqn:E; [|by apply IH].
  apply Ascii.eqb_eq in E as ->. congruence.
Qed.

Lemma hex8_no_slash u : contains "/" (Uuid.hex8 u) = false.
Proof.
  apply (contains_forall _ is_hex_char); [reflexivity|]. apply hex8_shape.
Qed.

Lemma os_path_join_child d rest :
  Ascii.eqb d "/" = false ->
  os_path_join UPLOAD_FOLDER (String d rest) = "static/uploads/" ++ String d rest.
Proof. intros Hd. unfold os_path_join. simpl. by rewrite Hd. Qed.

Lemma hex8_cons u :
  exists d rest, Uuid.hex8 u = String d rest /\ is_hex_char d = true.
Proof.
  rewrite hex8_unfold. eexists _, _. split; [reflexivity|].
  apply hex_digit_is_hex.
Qed.

Lemma os_path_join_upload u name :
  os_path_join UPLOAD_FOLDER (Uuid.hex8 u ++ name)
  = "static/uploads/" ++ Uuid.hex8 u ++ name.
Proof.
  destruct (hex8_cons u) as (d & rest & -> & Hd).
  change (String d rest ++ name) with (String d (rest ++ name)).
  apply os_path_join_child.
  destruct (Ascii.eqb d "/") eqn:E; [|reflexivity].
  apply Ascii.eqb_eq in E. subst d. discriminate Hd.
Qed.

Lemma rsplit_last_app_r c s t before after :
  rsplit_last c t = Some (before, after) ->
  rsplit_last c (s ++ t) = Some (s ++ before, after).
Proof.
  intros Ht. induction s as [|a s IH]; simpl; [done|]. by rewrite IH.
Qed.

Lemma extension_app_r s t e :
  extension t = Ok e -> extension (s ++ t) = Ok e.
Proof.
  unfold extension, rsplit1.
  destruct (rsplit_last dot t) as [[before after]|] eqn:Ht; [|done].
  by rewrite (rsplit_last_app_r _ s _ _ _ Ht).
Qed.

Lemma extension_ok_iff filename :
  (exists e, extension filename = Ok e) <-> contains dot filename = true.
Proof.
  split.
  - intros [e He]. destruct (contains dot filename) eqn:Hc; [done|].
    rewrite extension_no_dot in He by done. discriminate He.
  - intros Hc. destruct (extension_dot _ Hc) as (b & x & _ & _ & ->). by eexists.
Qed.

Lemma get_file_type_of_extension filename e :
  extension filename = Ok e ->
  get_file_type filename
  = Ok (type_of_extension e).
Proof.
  intros He. unfold get_file_type, type_of_extension. rewrite He.
  by destruct (bool_decide _).
Qed.

Lemma allowed_file_true_nonempty f :
  allowed_file f = Ok true ->
  truthy (Some f) && negb (String.eqb f "") = true.
Proof. destruct f; [intros H; vm_compute in H; discriminate H|done]. Qed.

Lemma process_upload_not_accepted secure_filename req env w :
  upload_accepted req = false ->
  process_upload secure_filename req env w = (Ok (None, None), w).
Proof.
  unfold upload_accepted, process_upload.
  destruct (files req !! "media_file") as [file|]; [|done].
  unfold bind, lift, ret. destruct (truthy _ && negb _); [|done].
  destruct (allowed_file_total (filename file)) as [[] ->]; done.
Qed.

(** What the upload block does once the raw name passed [allowed_file]. *)
Lemma process_upload_accepted secure_filename req env w file :
  files req !! "media_file" = Some file ->
  allowed_file (filename file) = Ok true ->
  process_upload secure_filename req env w =
  match extension (secure_filename (filename file)) with
  | Raise e => (Raise e, w)
  | Ok ext =>
      match save_error env with
      | Some msg => (Raise (OSError msg), w)
      | None =>
          (Ok (Some (type_of_extension ext),
               Some (unique_name secure_filename env file)),
           saved secure_filename env file w)
      end
  end.
Proof.
  intros Hf Ha. unfold process_upload. rewrite Hf.
  unfold bind, lift, ret. rewrite (allowed_file_true_nonempty _ Ha), Ha.
  destruct (extension (secure_filename (filename file))) as [ext|e] eqn:He; [|done].
  unfold file_save. destruct (save_error env) as [msg|]; [done|].
  rewrite os_path_join_upload.
  assert (extension (Uuid.hex8 (uuid4 env) ++ "_" ++ secure_filename (filename file))
          = Ok ext) as Hu.
  { do 2 apply extension_app_r. exact He. }
  rewrite (get_file_type_of_extension _ _ Hu). done.
Qed.

Lemma upload_accepted_true req :
  upload_accepted req = true ->
  exists file,
    files req !! "media_file" = Some file
    /\ allowed_file (filename file) = Ok true.
Proof.
  unfold upload_accepted.
  destruct (files req !! "media_file") as [file|] eqn:Hf; [|done].
  destruct (allowed_file (filename file)) as [[]|] eqn:Ha; [|done..].
  intros _. exists file. split; [reflexivity|exact Ha].
Qed.

(** The upload block ends in one of three ways: nothing accepted, an
    exception before anything is written, or the file saved and both media
    fields set. *)
Lemma process_upload_shape secure_filename req env w :
  process_upload secure_filename req env w = (Ok (None, None), w)
  \/ (exists e, process_upload secure_filename req env w = (Raise e, w))
  \/ (exists file ext,
        files req !! "media_file" = Some file
        /\ allowed_file (filename file) = Ok true
        /\ extension (secure_filename (filename file)) = Ok ext
        /\ save_error env = None
        /\ process_upload secure_filename req env w
           = (Ok (Some (type_of_extension ext),
                  Some (unique_name secure_filename env file)),
              saved secure_filename env file w)).
Proof.
  destruct (upload_accepted req) eqn:Ha.
  - apply upload_accepted_true in Ha as (file & Hf & Hal).
    rewrite (process_upload_accepted _ _ _ _ _ Hf Hal).
    destruct (extension (secure_filename (filename file))) as [ext|e] eqn:He.
    + destruct (save_error env) as [msg|] eqn:Hs.
      * right; left. by eexists.
      * right; right. by exists file, ext.
    + right; left. by eexists.
  - left. by apply process_upload_not_accepted.
Qed.

(** ** The three ways a POST to [/new] ends *)

Lemma new_post_upload_raises secure_filename req env w e w1 :
  method req = POST ->
  process_upload secure_filename req env w = (Raise e, w1) ->
  new_post secure_filename req env w = (failure_page e, w1).
Proof.
  intros Hm Hu. unfold new_post, new_post_body, bind. by rewrite Hm, Hu.
Qed.

Lemma new_post_invalid secure_filename req env w mt mf w1 :
  method req = POST ->
  process_upload secure_filename req env w = (Ok (mt, mf), w1) ->
  truthy (form req !! "title")
  && (truthy (form req !! "content") || truthy mf) = false ->
  new_post secure_filename req env w = (validation_page, w1).
Proof.
  intros Hm Hu Hc. unfold new_post, new_post_body, bind. by rewrite Hm, Hu, Hc.
Qed.

Lemma truthy_some o : truthy o = true -> exists s, o = Some s.
Proof. destruct o as [s|]; [by exists s|done]. Qed.

Lemma new_post_valid secure_filename req env w mt mf w1 :
  method req = POST ->
  process_upload secure_filename req env w = (Ok (mt, mf), w1) ->
  truthy (form req !! "title")
  && (truthy (form req !! "content") || truthy mf) = true ->
  exists t, form req !! "title" = Some t /\
  new_post secure_filename req env w =
  match commit_error env with
  | Some msg => (failure_page (SQLAlchemyError msg), w1)
  | None =>
      (redirect "/",
       {| posts := posts w1 ++ [inserted_row req env (posts w1) t mt mf];
          disk := disk w1 |})
  end.
Proof.
  intros Hm Hu Hc.
  destruct (truthy_some (form req !! "title")) as [t Ht].
  { by apply andb_true_iff in Hc as [? _]. }
  exists t. split; [done|].
  unfold new_post, new_post_body, bind. rewrite Hm, Hu, Hc.
  unfold db_session_add_commit, ret. simpl.
  destruct (commit_error env); [done|]. by rewrite Ht.
Qed.

(** Every run of a POST through [new_post]: the upload block raised (nothing
    written), or it left the media pair [(mt, mf)] and the world [w1], after
    which the request is turned down, the commit fails, or the row is
    appended. *)
Lemma new_post_cases secure_filename req env w :
  method req = POST ->
  (exists e,
     process_upload secure_filename req env w = (Raise e, w)
     /\ new_post secure_filename req env w = (failure_page e, w))
  \/ (exists mt mf w1,
        process_upload secure_filename req env w = (Ok (mt, mf), w1)
        /\ ((mt = None /\ mf = None /\ w1 = w)
            \/ (exists file ext,
                  files req !! "media_file" = Some file
                  /\ allowed_file (filename file) = Ok true
                  /\ extension (secure_filename (filename file)) = Ok ext
                  /\ save_error env = None
                  /\ mt = Some (type_of_extension ext)
                  /\ mf = Some (unique_name secure_filename env file)
                  /\ w1 = saved secure_filename env file w))
        /\ ((truthy (form req !! "title")
             && (truthy (form req !! "content") || truthy mf) = false
             /\ new_post secure_filename req env w = (validation_page, w1))
            \/ (exists msg,
                  commit_error env = Some msg
                  /\ new_post secure_filename req env w
                     = (failure_page (SQLAlchemyError msg), w1))
            \/ (exists t,
                  form req !! "title" = Some t
                  /\ truthy (form req !! "title")
                     && (truthy (form req !! "content") || truthy mf) = true
                  /\ commit_error env = None
                  /\ new_post secure_filename req env w
                     = (redirect "/",
                        {| posts := posts w1
                                    ++ [inserted_row req env (posts w1) t mt mf];
                           disk := disk w1 |})))).
Proof.
  intros Hm.
  assert (forall mt mf w1,
    process_upload secure_filename req env w = (Ok (mt, mf), w1) ->
    (truthy (form req !! "title")
     && (truthy (form req !! "content") || truthy mf) = false
     /\ new_post secure_filename req env w = (validation_page, w1))
    \/ (exists msg,
          commit_error env = Some msg
          /\ new_post secure_filename req env w
             = (failure_page (SQLAlchemyError msg), w1))
    \/ (exists t,
          form req !! "title" = Some t
          /\ truthy (form req !! "title")
             && (truthy (form req !! "content") || truthy mf) = true
          /\ commit_error env = None
          /\ new_post secure_filename req env w
             = (redirect "/",
                {| posts := posts w1
                            ++ [inserted_row req env (posts w1) t mt mf];
                   disk := disk w1 |}))) as Hend.
  { intros mt mf w1 Hu.
    destruct (truthy (form req !! "title")
              && (truthy (form req !! "content") || truthy mf)) eqn:Hc.
    - destruct (new_post_valid _ _ _ _ _ _ _ Hm Hu Hc) as (t & Ht & Hn).
      destruct (commit_error env) as [msg|] eqn:Hce.
      + right; left. by exists msg.
      + right; right. by exists t.
    - left. split; [done|]. by apply new_post_invalid with (mt := mt) (mf := mf). }
  destruct (process_upload_shape secure_filename req env w)
    as [Hu|[[e Hu]|(file & ext & Hf & Ha & He & Hs & Hu)]].
  - right. exists None, None, w. split; [done|]. split; [by left|]. by apply Hend.
  - left. exists e. split; [done|]. by apply new_post_upload_raises.
  - right. eexists _, _, _. split; [exact Hu|]. split.
    + right. by exists file, ext.
    + by apply Hend.
Qed.

(** ** Creating a post *)

Lemma no_media_not_accepted req :
  no_media_submitted req = true -> upload_accepted req = false.
Proof.
  unfold no_media_submitted, upload_accepted.
  destruct (files req !! "media_file") as [file|]; [|done].
  intros ->%String.eqb_eq. done.
Qed.

(** C7.  A POST to [/new] ends in exactly two ways.  Either the commit went
    through and the answer is a redirect to [url_for('home')], which is [/],
    with one row appended; or the answer is the page [new_post.html] with
    status 200 and an error message, the table unchanged: the validation
    message of line 125, or the failure prefix followed by the text of the
    exception caught at line 127.  A failing commit and a failing
    [file.save] both end on that page. *)
Theorem new_post_redirects_or_shows_error secure_filename req env w :
  method req = POST ->
  (((new_post secure_filename req env w).1 = redirect "/"
    /\ url_for "home" = "/"
    /\ exists p, posts (new_post secure_filename req env w).2 = (posts w ++ [p])%list)
   \/ (status_code (new_post secure_filename req env w).1 = 200%nat
       /\ posts (new_post secure_filename req env w).2 = posts w
       /\ ((new_post secure_filename req env w).1 = validation_page
           \/ exists e, (new_post secure_filename req env w).1 = failure_page e)))
  /\ (forall msg,
        commit_error env = Some msg ->
        truthy (form req !! "title") = true ->
        truthy (form req !! "content") = true ->
        upload_accepted req = false ->
        new_post secure_filename req env w
        = (failure_page (SQLAlchemyError msg), w))
  /\ (forall msg file,
        save_error env = Some msg ->
        files req !! "media_file" = Some file ->
        allowed_file (filename file) = Ok true ->
        contains dot (secure_filename (filename file)) = true ->
        new_post secure_filename req env w = (failure_page (OSError msg), w)).
Proof.
  intros Hm. split; [|split].
  - destruct (new_post_cases secure_filename req env w Hm)
      as [(e & _ & ->)|(mt & mf & w1 & _ & Hw1 & Hend)].
    + right. simpl. split; [done|]. split; [done|]. right. by exists e.
    + assert (posts w1 = posts w) as Hp.
      { destruct Hw1 as [(_ & _ & ->)|(file & ext & _ & _ & _ & _ & _ & _ & ->)]; done. }
      destruct Hend as [[_ ->]|[(msg & _ & ->)|(t & _ & _ & _ & ->)]]; simpl.
      * right. split; [done|]. split; [done|]. by left.
      * right. split; [done|]. split; [done|]. right. by eexists.
      * left. split; [done|]. split; [done|]. rewrite Hp. by eexists.
  - intros msg Hce Ht Hc Hna.
    pose proof (process_upload_not_accepted secure_filename req env w Hna) as Hu.
    destruct (new_post_valid _ _ _ _ _ _ _ Hm Hu) as (t & _ & ->).
    { by rewrite Ht, Hc. }
    by rewrite Hce.
  - intros msg file Hse Hf Ha Hdot.
    apply new_post_upload_raises; [done|].
    rewrite (process_upload_accepted _ _ _ _ _ Hf Ha).
    apply extension_ok_iff in Hdot as [ext ->]. by rewrite Hse.
Qed.

(** C1, as the code has it.  A POST that breaks the rule of line 112 never
    adds a row and always ends on the form with an error message.  When the
    request carries no accepted upload, the message is the validation message
    and nothing is written at all.  When the title is missing and the request
    carries an accepted upload whose sanitised name keeps an extension, the
    upload block has already run: the file is on disk when the validation
    message is returned. *)
Theorem violating_request_adds_no_post secure_filename req env w :
  method req = POST ->
  violates_invariant req ->
  posts (new_post secure_filename req env w).2 = posts w
  /\ (exists msg,
        (new_post secure_filename req env w).1
        = render_template "new_post.html" (ctx_error (Some msg)))
  /\ (upload_accepted req = false ->
        rejected_without_effect
          (new_post secure_filename req env w).1 w
          (new_post secure_filename req env w).2)
  /\ (forall file,
        truthy (form req !! "title") = false ->
        files req !! "media_file" = Some file ->
        allowed_file (filename file) = Ok true ->
        contains dot (secure_filename (filename file)) = true ->
        save_error env = None ->
        new_post secure_filename req env w
        = (validation_page, saved secure_filename env file w)).
Proof.
  intros Hm Hv.
  split; [|split; [|split]].
  - destruct (new_post_cases secure_filename req env w Hm)
      as [(e & _ & ->)|(mt & mf & w1 & _ & Hw1 & Hend)]; [done|].
    assert (posts w1 = posts w) as Hp.
    { destruct Hw1 as [(_ & _ & ->)|(file & ext & _ & _ & _ & _ & _ & _ & ->)]; done. }
    destruct Hend as [[_ ->]|[(msg & _ & ->)|(t & Ht & Hc & _ & _)]]; [done..|].
    exfalso. destruct Hv as [Hv|[Hv Hna]].
    + by rewrite Hv in Hc.
    + destruct Hw1 as [(_ & -> & _)|(file & ext & Hf & Ha & _)].
      * rewrite Hv in Hc. by destruct (truthy (form req !! "title")).
      * unfold upload_accepted in Hna. by rewrite Hf, Ha in Hna.
  - destruct (new_post_cases secure_filename req env w Hm)
      as [(e & _ & ->)|(mt & mf & w1 & _ & Hw1 & Hend)]; [by eexists|].
    destruct Hend as [[_ ->]|[(msg & _ & ->)|(t & Ht & Hc & _ & _)]];
      [by eexists..|].
    exfalso. destruct Hv as [Hv|[Hv Hna]].
    + by rewrite Hv in Hc.
    + destruct Hw1 as [(_ & -> & _)|(file & ext & Hf & Ha & _)].
      * rewrite Hv in Hc. by destruct (truthy (form req !! "title")).
      * unfold upload_accepted in Hna. by rewrite Hf, Ha in Hna.
  - intros Hna.
    pose proof (process_upload_not_accepted secure_filename req env w Hna) as Hu.
    rewrite (new_post_invalid _ _ _ _ _ _ _ Hm Hu).
    + done.
    + destruct Hv as [->|[-> _]]; [done|]. by destruct (truthy _).
  - intros file Ht Hf Ha Hdot Hs.
    apply extension_ok_iff in Hdot as [ext He].
    eapply new_post_invalid; [done| |by rewrite Ht].
    rewrite (process_upload_accepted _ _ _ _ _ Hf Ha), He, Hs. done.
Qed.

Lemma violating_request_adds_no_post_witness :
  posts (new_post Werkzeug.secure_filename
           (post_request [("content", "text")] None)
           sample_environ three_posts).2 = posts three_posts
  /\ rejected_without_effect
       (new_post Werkzeug.secure_filename
          (post_request [("content", "text")] None)
          sample_environ three_posts).1
       three_posts
       (new_post Werkzeug.secure_filename
          (post_request [("content", "text")] None)
          sample_environ three_posts).2.
Proof.
  destruct (violating_request_adds_no_post Werkzeug.secure_filename
              (post_request [("content", "text")] None)
              sample_environ three_posts) as (Hposts & _ & Hrej & _).
  - reflexivity.
  - left. vm_compute. reflexivity.
  - split; [exact Hposts|]. apply Hrej. vm_compute. reflexivity.
Defined.

(** C1 fails as stated: a POST without a title that carries [holiday.png]
    breaks the rule and is answered with the validation message, yet the
    file has been written to the upload folder. *)
Lemma violating_request_counterexample :
  violates_invariant
    (post_request [("title", ""); ("content", "text")]
       (Some (sample_file "holiday.png")))
  /\ (new_post Werkzeug.secure_filename
        (post_request [("title", ""); ("content", "text")]
           (Some (sample_file "holiday.png")))
        sample_environ empty_world).1 = validation_page
  /\ disk (new_post Werkzeug.secure_filename
             (post_request [("title", ""); ("content", "text")]
                (Some (sample_file "holiday.png")))
             sample_environ empty_world).2
     !! "static/uploads/deadbeef_holiday.png"
     = Some (stream (sample_file "holiday.png"))
  /\ ~ rejected_without_effect
        (new_post Werkzeug.secure_filename
           (post_request [("title", ""); ("content", "text")]
              (Some (sample_file "holiday.png")))
           sample_environ empty_world).1
        empty_world
        (new_post Werkzeug.secure_filename
           (post_request [("title", ""); ("content", "text")]
              (Some (sample_file "holiday.png")))
           sample_environ empty_world).2.
Proof.
  assert (disk (new_post Werkzeug.secure_filename
             (post_request [("title", ""); ("content", "text")]
                (Some (sample_file "holiday.png")))
             sample_environ empty_world).2
     !! "static/uploads/deadbeef_holiday.png"
     = Some (stream (sample_file "holiday.png"))) as Hfile
    by (vm_compute; reflexivity).
  split; [left; vm_compute; reflexivity|].
  split; [vm_compute; reflexivity|].
  split; [exact Hfile|].
  intros (_ & _ & Hdisk). rewrite Hdisk in Hfile. discriminate Hfile.
Qed.

Lemma new_post_redirects_or_shows_error_witness :
  new_post Werkzeug.secure_filename
    (post_request [("title", "Hello"); ("content", "**World**")] None)
    {| uuid4 := 7; utcnow := 5; save_error := None;
       commit_error := Some "database is locked" |}
    empty_world
  = (failure_page (SQLAlchemyError "database is locked"), empty_world).
Proof.
  destruct (new_post_redirects_or_shows_error Werkzeug.secure_filename
              (post_request [("title", "Hello"); ("content", "**World**")] None)
              {| uuid4 := 7; utcnow := 5; save_error := None;
                 commit_error := Some "database is locked" |}
              empty_world) as (_ & Hcommit & _).
  - reflexivity.
  - apply Hcommit; vm_compute; reflexivity.
Defined.

(** C3.  Whatever the request, [new_post] leaves the table as it was or
    appends one row, and that row has [media_type] and [media_filename] both
    set or both unset; so a table in which every row is paired stays so.  A
    POST with a title and content and no media submitted, whose commit goes
    through, appends a row with both fields unset and leaves the disk
    untouched. *)
Theorem media_fields_paired secure_filename req env w :
  (posts (new_post secure_filename req env w).2 = posts w
   \/ exists p,
        posts (new_post secure_filename req env w).2 = (posts w ++ [p])%list
        /\ media_paired p)
  /\ (Forall media_paired (posts w) ->
      Forall media_paired (posts (new_post secure_filename req env w).2))
  /\ (method req = POST ->
      truthy (form req !! "title") = true ->
      truthy (form req !! "content") = true ->
      no_media_submitted req = true ->
      commit_error env = None ->
      exists p,
        new_post secure_filename req env w
        = (redirect "/", {| posts := (posts w ++ [p])%list; disk := disk w |})
        /\ media_type p = None /\ media_filename p = None
        /\ Some (title p) = form req !! "title"
        /\ content_markdown p = form req !! "content").
Proof.
  assert (posts (new_post secure_filename req env w).2 = posts w
          \/ exists p,
               posts (new_post secure_filename req env w).2 = (posts w ++ [p])%list
               /\ media_paired p) as Hstep.
  { destruct (method req) eqn:Hm.
    { left. unfold new_post. by rewrite Hm. }
    destruct (new_post_cases secure_filename req env w Hm)
      as [(e & _ & ->)|(mt & mf & w1 & _ & Hw1 & Hend)]; [by left|].
    assert (posts w1 = posts w /\ (mt = None <-> mf = None)) as [Hp Hpair].
    { destruct Hw1 as [(-> & -> & ->)|(file & ext & _ & _ & _ & _ & -> & -> & ->)];
        split; done. }
    destruct Hend as [[_ ->]|[(msg & _ & ->)|(t & _ & _ & _ & ->)]]; simpl.
    - by left.
    - by left.
    - right. rewrite Hp. eexists. split; [done|]. exact Hpair. }
  split; [exact Hstep|]. split.
  - intros Hall. destruct Hstep as [->|(p & -> & Hp)]; [done|].
    apply Forall_app. split; [done|]. by constructor.
  - intros Hm Ht Hc Hnm Hce.
    pose proof (process_upload_not_accepted secure_filename req env w
                  (no_media_not_accepted req Hnm)) as Hu.
    destruct (new_post_valid _ _ _ _ _ _ _ Hm Hu) as (t & Htitle & Hn).
    { by rewrite Ht, Hc. }
    rewrite Hce in Hn. eexists. split; [exact Hn|]. by rewrite Htitle.
Qed.

Lemma media_fields_paired_witness :
  exists p,
    new_post Werkzeug.secure_filename
      (post_request [("title", "Hello"); ("content", "**World**")] None)
      sample_environ three_posts
    = (redirect "/", {| posts := (posts three_posts ++ [p])%list; disk := disk three_posts |})
    /\ media_type p = None /\ media_filename p = None
    /\ Some (title p) = Some "Hello"
    /\ content_markdown p = Some "**World**".
Proof.
  destruct (media_fields_paired Werkzeug.secure_filename
              (post_request [("title", "Hello"); ("content", "**World**")] None)
              sample_environ three_posts) as (_ & _ & Hplain).
  apply Hplain; vm_compute; reflexivity.
Defined.

(** C8, as the code has it.  When a POST is answered with the redirect, the
    appended row's topic is the column default if the form had no field
    [topic], and otherwise the submitted text as it is, the empty text
    included. *)
Theorem topic_default_when_omitted secure_filename req env w :
  method req = POST ->
  (new_post secure_filename req env w).1 = redirect "/" ->
  exists p,
    posts (new_post secure_filename req env w).2 = (posts w ++ [p])%list
    /\ (form req !! "topic" = None -> topic p = TOPIC_DEFAULT)
    /\ (forall t, form req !! "topic" = Some t -> topic p = t).
Proof.
  intros Hm Hr.
  destruct (new_post_cases secure_filename req env w Hm)
    as [(e & _ & Hn)|(mt & mf & w1 & _ & Hw1 & Hend)].
  { rewrite Hn in Hr. discriminate Hr. }
  assert (posts w1 = posts w) as Hp.
  { destruct Hw1 as [(_ & _ & ->)|(file & ext & _ & _ & _ & _ & _ & _ & ->)]; done. }
  destruct Hend as [[_ Hn]|[(msg & _ & Hn)|(t & _ & _ & _ & Hn)]];
    rewrite Hn in Hr |- *; [discriminate Hr..|].
  simpl. rewrite Hp. eexists. split; [done|]. simpl.
  split; [by intros ->|]. by intros t' ->.
Qed.

Lemma topic_default_when_omitted_witness :
  exists p,
    posts (new_post Werkzeug.secure_filename
             (post_request [("title", "Hello"); ("content", "**World**")] None)
             sample_environ empty_world).2 = (posts empty_world ++ [p])%list
    /\ topic p = TOPIC_DEFAULT.
Proof.
  destruct (topic_default_when_omitted Werkzeug.secure_filename
              (post_request [("title", "Hello"); ("content", "**World**")] None)
              sample_environ empty_world) as (p & Hp & Hdef & _).
  - reflexivity.
  - vm_compute. reflexivity.
  - exists p. split; [exact Hp|]. apply Hdef. vm_compute. reflexivity.
Defined.

(** C8 fails as stated: a POST whose [topic] field is submitted empty is
    stored with the empty topic, not with the default label. *)
Lemma topic_empty_counterexample :
  exists p,
    new_post Werkzeug.secure_filename
      (post_request [("title", "Hello"); ("topic", ""); ("content", "text")] None)
      sample_environ empty_world
    = (redirect "/", {| posts := [p]; disk := ∅ |})
    /\ topic p = ""
    /\ topic p <> TOPIC_DEFAULT.
Proof.
  eexists. split; [vm_compute; reflexivity|]. split; [reflexivity|].
  simpl. intros H. discriminate H.
Qed.

(** ** Where an upload is stored *)

Lemma unique_name_no_slash secure_filename env file :
  contains "/" (secure_filename (filename file)) = false ->
  contains "/" (unique_name secure_filename env file) = false.
Proof.
  intros Hs. unfold unique_name.
  rewrite !contains_app_or, hex8_no_slash, Hs. reflexivity.
Qed.

(** With an accepted upload that can be saved, every run of a POST leaves the
    disk of [saved]. *)
Lemma new_post_disk_saved secure_filename req env w file :
  method req = POST ->
  files req !! "media_file" = Some file ->
  allowed_file (filename file) = Ok true ->
  contains dot (secure_filename (filename file)) = true ->
  save_error env = None ->
  exists ext,
    extension (secure_filename (filename file)) = Ok ext
    /\ disk (new_post secure_filename req env w).2
       = disk (saved secure_filename env file w)
    /\ ((new_post secure_filename req env w).1 = redirect "/" ->
        posts (new_post secure_filename req env w).2
        = (posts w ++ [inserted_row req env (posts w)
                         (default "" (form req !! "title"))
                         (Some (type_of_extension ext))
                         (Some (unique_name secure_filename env file))])%list).
Proof.
  intros Hm Hf Ha Hdot Hs.
  apply extension_ok_iff in Hdot as [ext He]. exists ext. split; [done|].
  assert (process_upload secure_filename req env w
          = (Ok (Some (type_of_extension ext),
                 Some (unique_name secure_filename env file)),
             saved secure_filename env file w)) as Hu.
  { by rewrite (process_upload_accepted _ _ _ _ _ Hf Ha), He, Hs. }
  destruct (truthy (form req !! "title")
            && (truthy (form req !! "content")
                || truthy (Some (unique_name secure_filename env file)))) eqn:Hc.
  - destruct (new_post_valid _ _ _ _ _ _ _ Hm Hu Hc) as (t & Ht & ->).
    destruct (commit_error env); simpl; [done|].
    split; [done|]. intros _. by rewrite Ht.
  - rewrite (new_post_invalid _ _ _ _ _ _ _ Hm Hu Hc). done.
Qed.

(** C4, as the code has it.  For an upload whose raw name passes
    [allowed_file], whose sanitised name keeps a dot and holds no slash, and
    whose save succeeds: the stored name is the eight hexadecimal digits of
    the token, an underscore, and the sanitised name; it holds no slash; the
    only path of the disk that changes is that name directly under
    [static/uploads]; and when the post is created its row carries that name
    and the type [get_file_type] gives the sanitised name.  With werkzeug's
    sanitiser the upload [../../etc/passwd.png] becomes the image
    [deadbeef_etc_passwd.png] under [static/uploads] for the token
    [deadbeef]. *)
Theorem upload_stored_under_token_name :
  (forall secure_filename req env w file,
     method req = POST ->
     files req !! "media_file" = Some file ->
     allowed_file (filename file) = Ok true ->
     contains dot (secure_filename (filename file)) = true ->
     contains "/" (secure_filename (filename file)) = false ->
     save_error env = None ->
     unique_name secure_filename env file
     = Uuid.hex8 (uuid4 env) ++ "_" ++ secure_filename (filename file)
     /\ String.length (Uuid.hex8 (uuid4 env)) = 8%nat
     /\ string_forall is_hex_char (Uuid.hex8 (uuid4 env)) = true
     /\ contains "/" (unique_name secure_filename env file) = false
     /\ disk (new_post secure_filename req env w).2
        = <["static/uploads/" ++ unique_name secure_filename env file
            := stream file]> (disk w)
     /\ (forall path,
           path <> "static/uploads/" ++ unique_name secure_filename env file ->
           disk (new_post secure_filename req env w).2 !! path = disk w !! path)
     /\ ((new_post secure_filename req env w).1 = redirect "/" ->
         exists p t,
           posts (new_post secure_filename req env w).2 = (posts w ++ [p])%list
           /\ media_filename p = Some (unique_name secure_filename env file)
           /\ media_type p = Some t
           /\ get_file_type (secure_filename (filename file)) = Ok t
           /\ (t = "image" \/ t = "video")))
  /\ new_post Werkzeug.secure_filename
       (post_request [("title", "Hello")]
          (Some (sample_file "../../etc/passwd.png")))
       sample_environ empty_world
     = (redirect "/",
        {| posts :=
             [ {| post_id := 1;
                  title := "Hello";
                  topic := TOPIC_DEFAULT;
                  content_markdown := None;
                  date_posted := 1700000000;
                  media_type := Some "image";
                  media_filename := Some "deadbeef_etc_passwd.png" |} ];
           disk := {[ "static/uploads/deadbeef_etc_passwd.png"
                      := stream (sample_file "../../etc/passwd.png") ]} |}).
Proof.
  split.
  - intros secure_filename req env w file Hm Hf Ha Hdot Hslash Hs.
    destruct (new_post_disk_saved secure_filename req env w file Hm Hf Ha Hdot Hs)
      as (ext & He & Hdisk & Hrow).
    split; [done|]. split; [apply hex8_shape|]. split; [apply hex8_shape|].
    split; [by apply unique_name_no_slash|].
    split; [exact Hdisk|]. split.
    + intros path Hne. rewrite Hdisk. simpl.
      apply lookup_insert_ne. unfold save_path. congruence.
    + intros Hr. rewrite (Hrow Hr).
      eexists _, (type_of_extension ext). split; [done|].
      split; [done|]. split; [done|].
      split; [by apply get_file_type_of_extension|].
      unfold type_of_extension. destruct (bool_decide _); [by right|by left].
  - vm_compute. reflexivity.
Qed.

Lemma upload_stored_under_token_name_witness :
  unique_name Werkzeug.secure_filename sample_environ (sample_file "My cat.JPG")
  = Uuid.hex8 (uuid4 sample_environ) ++ "_" ++ Werkzeug.secure_filename "My cat.JPG"
  /\ disk (new_post Werkzeug.secure_filename
             (post_request [("title", "Cat")] (Some (sample_file "My cat.JPG")))
             sample_environ empty_world).2
     = <["static/uploads/"
         ++ unique_name Werkzeug.secure_filename sample_environ
              (sample_file "My cat.JPG")
         := stream (sample_file "My cat.JPG")]> (disk empty_world).
Proof.
  destruct upload_stored_under_token_name as (Hgen & _).
  destruct (Hgen Werkzeug.secure_filename
              (post_request [("title", "Cat")] (Some (sample_file "My cat.JPG")))
              sample_environ empty_world (sample_file "My cat.JPG"))
    as (Hname & _ & _ & _ & Hdisk & _).
  - reflexivity.
  - vm_compute. reflexivity.
  - vm_compute. reflexivity.
  - vm_compute. reflexivity.
  - vm_compute. reflexivity.
  - reflexivity.
  - split; [exact Hname|exact Hdisk].
Defined.

(** C4 fails as stated: the stored name is not the token followed by the
    sanitised name (an underscore stands between them), and the sanitised
    name of [../../etc/passwd.png] is [etc_passwd.png], not [passwd.png]. *)
Lemma stored_name_counterexample :
  exists p,
    posts (new_post Werkzeug.secure_filename
             (post_request [("title", "Hello")]
                (Some (sample_file "../../etc/passwd.png")))
             sample_environ empty_world).2 = [p]
    /\ Uuid.hex8 (uuid4 sample_environ) = "deadbeef"
    /\ Werkzeug.secure_filename "../../etc/passwd.png" = "etc_passwd.png"
    /\ media_filename p = Some "deadbeef_etc_passwd.png"
    /\ media_filename p
       <> Some (Uuid.hex8 (uuid4 sample_environ)
                ++ Werkzeug.secure_filename "../../etc/passwd.png")
    /\ media_filename p
       <> Some (Uuid.hex8 (uuid4 sample_environ) ++ "passwd.png").
Proof.
  eexists. split; [vm_compute; reflexivity|].
  split; [vm_compute; reflexivity|]. split; [vm_compute; reflexivity|].
  split; [reflexivity|].
  split; vm_compute; intros H; discriminate H.
Qed.

(** ** The table under [new_post]: keys, order and lookup *)

Lemma next_id_above table p :
  p ∈ table -> (post_id p < next_id table)%nat.
Proof.
  unfold next_id. induction table as [|q table IH]; intros Hin.
  - by apply elem_of_nil in Hin.
  - apply elem_of_cons in Hin as [->|Hin]; simpl; [lia|].
    specialize (IH Hin). lia.
Qed.

Lemma find_snoc_fresh (table : list Post) row :
  (forall p, p ∈ table -> post_id p <> post_id row) ->
  List.find (fun p => Nat.eqb (post_id p) (post_id row)) (table ++ [row])
  = Some row.
Proof.
  induction table as [|q table IH]; intros Hfresh; simpl.
  - by rewrite Nat.eqb_refl.
  - destruct (Nat.eqb (post_id q) (post_id row)) eqn:E.
    + apply Nat.eqb_eq in E. destruct (Hfresh q); [by left|done].
    + apply IH. intros p Hp. apply Hfresh. by right.
Qed.

(** What a redirect tells: the upload block did not touch the table, the
    title is set, and one row built from the form was appended. *)
Lemma new_post_redirect_inv secure_filename req env w :
  method req = POST ->
  (new_post secure_filename req env w).1 = redirect "/" ->
  exists t mt mf,
    form req !! "title" = Some t
    /\ truthy (form req !! "title") = true
    /\ (mt = None <-> mf = None)
    /\ posts (new_post secure_filename req env w).2
       = (posts w ++ [inserted_row req env (posts w) t mt mf])%list.
Proof.
  intros Hm Hr.
  destruct (new_post_cases secure_filename req env w Hm)
    as [(e & _ & Hn)|(mt & mf & w1 & _ & Hw1 & Hend)].
  { rewrite Hn in Hr. discriminate Hr. }
  assert (posts w1 = posts w /\ (mt = None <-> mf = None)) as [Hp Hpair].
  { destruct Hw1 as [(-> & -> & ->)|(file & ext & _ & _ & _ & _ & -> & -> & ->)];
      split; done. }
  destruct Hend as [[_ Hn]|[(msg & _ & Hn)|(t & Ht & Hc & _ & Hn)]];
    rewrite Hn in Hr |- *; [discriminate Hr..|].
  exists t, mt, mf. split; [done|]. split.
  { by apply andb_true_iff in Hc as [? _]. }
  split; [done|]. simpl. by rewrite Hp.
Qed.

(** Any request: the table is left alone or one row is appended under the
    next key. *)
Lemma new_post_table_step secure_filename req env w :
  posts (new_post secure_filename req env w).2 = posts w
  \/ exists row,
       posts (new_post secure_filename req env w).2 = (posts w ++ [row])%list
       /\ post_id row = next_id (posts w)
       /\ date_posted row = utcnow env.
Proof.
  destruct (method req) eqn:Hm.
  { left. unfold new_post. by rewrite Hm. }
  destruct (new_post_cases secure_filename req env w Hm)
    as [(e & _ & ->)|(mt & mf & w1 & _ & Hw1 & Hend)]; [by left|].
  assert (posts w1 = posts w) as Hp.
  { destruct Hw1 as [(_ & _ & ->)|(file & ext & _ & _ & _ & _ & _ & _ & ->)]; done. }
  destruct Hend as [[_ ->]|[(msg & _ & ->)|(t & _ & _ & _ & ->)]]; simpl.
  - by left.
  - by left.
  - right. rewrite Hp. eexists. split; [done|]. done.
Qed.

(** Any request: the disk is left alone or the upload is written at its
    path. *)
Lemma new_post_disk_step secure_filename req env w :
  disk (new_post secure_filename req env w).2 = disk w
  \/ exists file,
       files req !! "media_file" = Some file
       /\ disk (new_post secure_filename req env w).2
          = <[save_path secure_filename env file := stream file]> (disk w).
Proof.
  destruct (method req) eqn:Hm.
  { left. unfold new_post. by rewrite Hm. }
  destruct (new_post_cases secure_filename req env w Hm)
    as [(e & _ & ->)|(mt & mf & w1 & _ & Hw1 & Hend)]; [by left|].
  assert (disk (new_post secure_filename req env w).2 = disk w1) as ->.
  { destruct Hend as [[_ ->]|[(msg & _ & ->)|(t & _ & _ & _ & ->)]]; done. }
  destruct Hw1 as [(_ & _ & ->)|(file & ext & Hf & _ & _ & _ & _ & _ & ->)];
    [by left|].
  right. by exists file.
Qed.

(** ** The sanitiser keeps names inside the folder *)

Lemma string_forall_filter p s :
  string_forall p (Werkzeug.filter_chars p s) = true.
Proof.
  induction s as [|a s IH]; simpl; [done|].
  destruct (p a) eqn:Ha; simpl; [by rewrite Ha|done].
Qed.

Lemma string_forall_lstrip p s :
  string_forall p s = true -> string_forall p (Werkzeug.lstrip s) = true.
Proof.
  induction s as [|a s IH]; simpl; [done|].
  intros [Ha Hs]%andb_true_iff.
  destruct (Werkzeug.strip_char a); [by apply IH|].
  simpl. by rewrite Ha, Hs.
Qed.

Lemma string_forall_rstrip p s :
  string_forall p s = true -> string_forall p (Werkzeug.rstrip s) = true.
Proof.
  induction s as [|a s IH]; simpl; [done|].
  intros [Ha Hs]%andb_true_iff. specialize (IH Hs).
  destruct (Werkzeug.rstrip s) as [|b r].
  - destruct (Werkzeug.strip_char a); simpl; [done|by rewrite Ha].
  - simpl in *. by rewrite Ha, IH.
Qed.

Lemma secure_filename_safe_chars f :
  string_forall Werkzeug.is_safe (Werkzeug.secure_filename f) = true.
Proof.
  unfold Werkzeug.secure_filename, Werkzeug.strip.
  apply string_forall_rstrip, string_forall_lstrip, string_forall_filter.
Qed.

Lemma secure_filename_no_slash f :
  contains "/" (Werkzeug.secure_filename f) = false.
Proof.
  apply (contains_forall _ Werkzeug.is_safe); [reflexivity|].
  apply secure_filename_safe_chars.
Qed.

(** ** Further properties of the handlers *)

(** X1.  Round trip through the store: when a POST is answered with the
    redirect, the appended row carries the submitted title and content and
    the clock's time, its key is new, the lookup by that key returns it, and
    [post_detail] shows it, rendering the content with [markdown] only when
    the content is not empty. *)
Theorem created_post_is_retrievable secure_filename markdown req env w :
  method req = POST ->
  (new_post secure_filename req env w).1 = redirect "/" ->
  exists p,
    posts (new_post secure_filename req env w).2 = (posts w ++ [p])%list
    /\ (forall q, q ∈ posts w -> post_id q <> post_id p)
    /\ Some (title p) = form req !! "title"
    /\ content_markdown p = form req !! "content"
    /\ date_posted p = utcnow env
    /\ db_session_get (new_post secure_filename req env w).2 (post_id p) = Some p
    /\ post_detail markdown (post_id p) (new_post secure_filename req env w).2
       = render_template "detail.html"
           (ctx_detail p
              (if truthy (form req !! "content")
               then markdown (default "" (form req !! "content"))
               else "")).
Proof.
  intros Hm Hr.
  destruct (new_post_redirect_inv secure_filename req env w Hm Hr)
    as (t & mt & mf & Ht & _ & _ & Hposts).
  set (p := inserted_row req env (posts w) t mt mf) in *.
  assert (forall q, q ∈ posts w -> post_id q <> post_id p) as Hfresh.
  { intros q Hq. pose proof (next_id_above _ _ Hq). simpl. lia. }
  assert (db_session_get (new_post secure_filename req env w).2 (post_id p)
          = Some p) as Hget.
  { unfold db_session_get. rewrite Hposts. by apply find_snoc_fresh. }
  exists p. split; [done|]. split; [done|]. split; [by rewrite Ht|].
  split; [done|]. split; [done|]. split; [done|].
  unfold post_detail. rewrite Hget. done.
Qed.

Lemma created_post_is_retrievable_witness :
  exists p,
    posts (new_post Werkzeug.secure_filename
             (post_request [("title", "Hello"); ("content", "**World**")] None)
             sample_environ three_posts).2 = (posts three_posts ++ [p])%list
    /\ Some (title p) = Some "Hello"
    /\ post_detail sample_markdown (post_id p)
         (new_post Werkzeug.secure_filename
            (post_request [("title", "Hello"); ("content", "**World**")] None)
            sample_environ three_posts).2
       = render_template "detail.html" (ctx_detail p "<p>**World**</p>").
Proof.
  destruct (created_post_is_retrievable Werkzeug.secure_filename sample_markdown
              (post_request [("title", "Hello"); ("content", "**World**")] None)
              sample_environ three_posts)
    as (p & Hp & _ & Ht & _ & _ & _ & Hd).
  - reflexivity.
  - vm_compute. reflexivity.
  - exists p. split; [exact Hp|]. split; [exact Ht|exact Hd].
Defined.

(** X2.  Keys stay unique: if no two rows share an [id], no request handled
    by [new_post] makes two rows share one. *)
Theorem new_post_keeps_ids_unique secure_filename req env w :
  NoDup (map post_id (posts w)) ->
  NoDup (map post_id (posts (new_post secure_filename req env w).2)).
Proof.
  intros Hnd.
  destruct (new_post_table_step secure_filename req env w)
    as [->|(row & -> & Hid & _)]; [done|].
  rewrite map_app. simpl. apply NoDup_app. split; [done|]. split.
  - intros k Hk Hrow. set_unfold.
    destruct Hk as (q & Hq & Hin). destruct Hrow as [Hrow|[]].
    pose proof (next_id_above _ _ Hin). lia.
  - apply NoDup_singleton.
Qed.

Lemma new_post_keeps_ids_unique_witness :
  NoDup (map post_id
           (posts (new_post Werkzeug.secure_filename
                     (post_request [("title", "Hello"); ("content", "text")] None)
                     sample_environ three_posts).2)).
Proof.
  apply new_post_keeps_ids_unique.
  vm_compute. repeat constructor; set_unfold; intros H;
    repeat destruct H as [H|H]; try discriminate H; try done.
Defined.

(** X3.  Nothing stored is ever changed or removed: after any request the
    old table is a prefix of the new one, and every path that held a file
    still holds one; the disk differs from the old one at one path at
    most. *)
Theorem new_post_only_adds secure_filename req env w :
  posts w `prefix_of` posts (new_post secure_filename req env w).2
  /\ (forall path, is_Some (disk w !! path) ->
        is_Some (disk (new_post secure_filename req env w).2 !! path))
  /\ (disk (new_post secure_filename req env w).2 = disk w
      \/ exists file,
           files req !! "media_file" = Some file
           /\ disk (new_post secure_filename req env w).2
              = <[save_path secure_filename env file := stream file]> (disk w)).
Proof.
  pose proof (new_post_disk_step secure_filename req env w) as Hdisk.
  split; [|split; [|exact Hdisk]].
  - destruct (new_post_table_step secure_filename req env w)
      as [->|(row & -> & _)]; [done|]. by apply prefix_app_r.
  - intros path Hsome.
    destruct Hdisk as [->|(file & _ & ->)]; [done|].
    destruct (decide (save_path secure_filename env file = path)) as [<-|Hne].
    + rewrite lookup_insert_eq. by eexists.
    + by rewrite lookup_insert_ne.
Qed.

(** X4.  A post created when the clock is past every stored timestamp heads
    the listing of [home], followed by the older posts. *)
Theorem new_post_heads_the_listing secure_filename req env w :
  method req = POST ->
  (new_post secure_filename req env w).1 = redirect "/" ->
  (forall q, q ∈ posts w -> (date_posted q < utcnow env)%Z) ->
  exists p rest,
    posts (new_post secure_filename req env w).2 = (posts w ++ [p])%list
    /\ home (new_post secure_filename req env w).2
       = render_template "index.html" (ctx_posts (p :: rest))
    /\ rest ≡ₚ posts w.
Proof.
  intros Hm Hr Hnew.
  destruct (new_post_redirect_inv secure_filename req env w Hm Hr)
    as (t & mt & mf & _ & _ & _ & Hposts).
  set (p := inserted_row req env (posts w) t mt mf) in *.
  set (w' := (new_post secure_filename req env w).2) in *.
  pose proof (listing_sorted w') as Hsorted.
  pose proof (listing_permutation w') as Hperm.
  rewrite Hposts in Hperm.
  assert (query_order_by_date_posted_desc w' ≡ₚ p :: posts w) as Hperm'.
  { rewrite Hperm. by rewrite Permutation_app_comm. }
  destruct (query_order_by_date_posted_desc w') as [|h rest] eqn:Hl.
  { by apply Permutation_nil_cons in Hperm'. }
  assert (h = p) as ->.
  { apply StronglySorted_inv in Hsorted as [_ Hhead].
    rewrite Forall_forall in Hhead.
    assert (h ∈ p :: posts w) as Hh by (rewrite <- Hperm'; by left).
    assert (p ∈ h :: rest) as Hp by (rewrite Hperm'; by left).
    apply elem_of_cons in Hh as [Hh|Hh]; [done|].
    apply elem_of_cons in Hp as [Hp|Hp]; [done|].
    specialize (Hnew h Hh). specialize (Hhead p Hp).
    unfold date_desc in Hhead. simpl in Hhead. lia. }
  exists p, rest. split; [done|]. split.
  - unfold home. by rewrite Hl.
  - by apply Permutation_cons_inv in Hperm'.
Qed.

Lemma new_post_heads_the_listing_witness :
  exists p rest,
    posts (new_post Werkzeug.secure_filename
             (post_request [("title", "Hello"); ("content", "text")] None)
             sample_environ three_posts).2 = (posts three_posts ++ [p])%list
    /\ home (new_post Werkzeug.secure_filename
               (post_request [("title", "Hello"); ("content", "text")] None)
               sample_environ three_posts).2
       = render_template "index.html" (ctx_posts (p :: rest))
    /\ rest ≡ₚ posts three_posts.
Proof.
  apply new_post_heads_the_listing.
  - reflexivity.
  - vm_compute. reflexivity.
  - intros q Hq. unfold three_posts in Hq. simpl in Hq. set_unfold.
    destruct Hq as [?|[?|[?|[]]]]; subst q; simpl; lia.
Defined.

Lemma new_post_only_adds_witness :
  is_Some (disk (new_post Werkzeug.secure_filename
                   (post_request [("title", "Cat")] (Some (sample_file "cat.gif")))
                   sample_environ
                   {| posts := []; disk := {[ "static/uploads/old.png" := [] ]} |}).2
           !! "static/uploads/old.png").
Proof.
  destruct (new_post_only_adds Werkzeug.secure_filename
              (post_request [("title", "Cat")] (Some (sample_file "cat.gif")))
              sample_environ
              {| posts := []; disk := {[ "static/uploads/old.png" := [] ]} |})
    as (_ & Hkept & _).
  apply Hkept. vm_compute. by eexists.
Defined.

(** X5.  A raw name that passes [allowed_file] but whose sanitised name has
    no dot left makes line 99 raise [IndexError]: the whole request ends on
    the failure page and nothing is stored, neither the file nor the post,
    whatever title and content were submitted. *)
Theorem sanitised_name_without_dot_aborts secure_filename req env w file :
  method req = POST ->
  files req !! "media_file" = Some file ->
  allowed_file (filename file) = Ok true ->
  contains dot (secure_filename (filename file)) = false ->
  new_post secure_filename req env w
  = (render_template "new_post.html"
       (ctx_error (Some (FAILURE_PREFIX ++ "list index out of range"))),
     w).
Proof.
  intros Hm Hf Ha Hdot.
  rewrite (new_post_upload_raises secure_filename req env w
             (IndexError "list index out of range") w Hm); [done|].
  rewrite (process_upload_accepted _ _ _ _ _ Hf Ha).
  by rewrite (extension_no_dot _ Hdot).
Qed.

Lemma sanitised_name_without_dot_aborts_witness :
  new_post Werkzeug.secure_filename
    (post_request [("title", "Hello"); ("content", "text")]
       (Some (sample_file ".png")))
    sample_environ three_posts
  = (render_template "new_post.html"
       (ctx_error (Some (FAILURE_PREFIX ++ "list index out of range"))),
     three_posts).
Proof.
  apply (sanitised_name_without_dot_aborts Werkzeug.secure_filename
           (post_request [("title", "Hello"); ("content", "text")]
              (Some (sample_file ".png")))
           sample_environ three_posts (sample_file ".png")).
  - reflexivity.
  - vm_compute. reflexivity.
  - vm_compute. reflexivity.
  - vm_compute. reflexivity.
Defined.

(** X6.  Only the text after the last dot counts: two names with the same
    last extension get the same answer from [allowed_file] and from
    [get_file_type], whatever stands before, further dots included. *)
Theorem only_last_extension_counts base1 base2 ext :
  contains dot ext = false ->
  allowed_file (base1 ++ "." ++ ext) = allowed_file (base2 ++ "." ++ ext)
  /\ get_file_type (base1 ++ "." ++ ext) = get_file_type (base2 ++ "." ++ ext).
Proof.
  intros Hn. by rewrite !allowed_file_split, !get_file_type_split.
Qed.

Lemma only_last_extension_counts_witness :
  allowed_file ("shell.php" ++ "." ++ "png") = allowed_file ("cat" ++ "." ++ "png")
  /\ get_file_type ("shell.php" ++ "." ++ "png") = get_file_type ("cat" ++ "." ++ "png").
Proof. apply only_last_extension_counts. reflexivity. Defined.

(** X7.  A post may consist of a title and a file alone: with a title, no
    content, an accepted upload whose sanitised name keeps its extension, and
    save and commit succeeding, the answer is the redirect; the file is on
    disk and the row carries its name and type and the content as
    submitted. *)
Theorem media_only_post_is_created secure_filename req env w file :
  method req = POST ->
  truthy (form req !! "title") = true ->
  files req !! "media_file" = Some file ->
  allowed_file (filename file) = Ok true ->
  contains dot (secure_filename (filename file)) = true ->
  save_error env = None ->
  commit_error env = None ->
  exists p t,
    new_post secure_filename req env w
    = (redirect "/",
       {| posts := (posts w ++ [p])%list;
          disk := <[save_path secure_filename env file := stream file]> (disk w) |})
    /\ media_filename p = Some (unique_name secure_filename env file)
    /\ media_type p = Some t
    /\ get_file_type (unique_name secure_filename env file) = Ok t
    /\ content_markdown p = form req !! "content".
Proof.
  intros Hm Ht Hf Ha Hdot Hs Hc.
  apply extension_ok_iff in Hdot as [ext He].
  assert (process_upload secure_filename req env w
          = (Ok (Some (type_of_extension ext),
                 Some (unique_name secure_filename env file)),
             saved secure_filename env file w)) as Hu.
  { by rewrite (process_upload_accepted _ _ _ _ _ Hf Ha), He, Hs. }
  destruct (new_post_valid _ _ _ _ _ _ _ Hm Hu) as (t & Htitle & Hn).
  { rewrite Ht. unfold unique_name.
    destruct (hex8_cons (uuid4 env)) as (d & rest & -> & _).
    by destruct (truthy (form req !! "content")). }
  rewrite Hc in Hn. eexists _, (type_of_extension ext).
  split; [exact Hn|]. split; [done|]. split; [done|]. split; [|done].
  apply get_file_type_of_extension. unfold unique_name.
  do 2 apply extension_app_r. exact He.
Qed.

Lemma media_only_post_is_created_witness :
  exists p t,
    new_post Werkzeug.secure_filename
      (post_request [("title", "Clip")] (Some (sample_file "trip.MP4")))
      sample_environ empty_world
    = (redirect "/",
       {| posts := (posts empty_world ++ [p])%list;
          disk := <[save_path Werkzeug.secure_filename sample_environ
                      (sample_file "trip.MP4")
                    := stream (sample_file "trip.MP4")]> (disk empty_world) |})
    /\ media_filename p
       = Some (unique_name Werkzeug.secure_filename sample_environ
                 (sample_file "trip.MP4"))
    /\ media_type p = Some t
    /\ get_file_type (unique_name Werkzeug.secure_filename sample_environ
                        (sample_file "trip.MP4")) = Ok t
    /\ content_markdown p = None.
Proof.
  apply (media_only_post_is_created Werkzeug.secure_filename
           (post_request [("title", "Clip")] (Some (sample_file "trip.MP4")))
           sample_environ empty_world (sample_file "trip.MP4"));
    vm_compute; reflexivity.
Defined.

(** X8.  No collision check: when the path built from the token and the
    sanitised name already holds a file, a saved upload replaces its
    contents. *)
Theorem upload_replaces_file_at_same_path
    secure_filename req env w file earlier :
  method req = POST ->
  files req !! "media_file" = Some file ->
  allowed_file (filename file) = Ok true ->
  contains dot (secure_filename (filename file)) = true ->
  save_error env = None ->
  disk w !! save_path secure_filename env file = Some earlier ->
  disk (new_post secure_filename req env w).2
    !! save_path secure_filename env file = Some (stream file).
Proof.
  intros Hm Hf Ha Hdot Hs _.
  destruct (new_post_disk_saved secure_filename req env w file Hm Hf Ha Hdot Hs)
    as (ext & _ & -> & _).
  unfold saved. simpl. apply lookup_insert_eq.
Qed.

Lemma upload_replaces_file_at_same_path_witness :
  disk (new_post Werkzeug.secure_filename
          (post_request [("title", "Cat")] (Some (sample_file "cat.png")))
          sample_environ
          {| posts := []; disk := {[ "static/uploads/deadbeef_cat.png" := [] ]} |}).2
    !! save_path Werkzeug.secure_filename sample_environ (sample_file "cat.png")
  = Some (stream (sample_file "cat.png")).
Proof.
  apply (upload_replaces_file_at_same_path Werkzeug.secure_filename
           (post_request [("title", "Cat")] (Some (sample_file "cat.png")))
           sample_environ
           {| posts := []; disk := {[ "static/uploads/deadbeef_cat.png" := [] ]} |}
           (sample_file "cat.png") []);
    vm_compute; reflexivity.
Defined.

(** X9.  With werkzeug's sanitiser no request writes outside the upload
    folder: a path whose contents differ after [new_post] is
    [static/uploads/] followed by a name that holds no slash and does not
    start with a dot. *)
Theorem uploads_stay_in_folder req env w path :
  disk (new_post Werkzeug.secure_filename req env w).2 !! path <> disk w !! path ->
  exists name,
    path = "static/uploads/" ++ name
    /\ contains "/" name = false
    /\ startswith_char "." name = false
    /\ name <> "".
Proof.
  intros Hdiff.
  destruct (new_post_disk_step Werkzeug.secure_filename req env w)
    as [Hsame|(file & _ & Hdisk)].
  { by rewrite Hsame in Hdiff. }
  destruct (decide (save_path Werkzeug.secure_filename env file = path))
    as [<-|Hne].
  2: { rewrite Hdisk, lookup_insert_ne in Hdiff by done. done. }
  exists (unique_name Werkzeug.secure_filename env file).
  split; [done|]. split.
  { apply unique_name_no_slash, secure_filename_no_slash. }
  unfold unique_name.
  destruct (hex8_cons (uuid4 env)) as (d & rest & -> & Hd).
  split; [|done]. simpl.
  destruct (Ascii.eqb d ".") eqn:E; [|done].
  apply Ascii.eqb_eq in E. subst d. discriminate Hd.
Qed.

Lemma uploads_stay_in_folder_witness :
  exists name,
    "static/uploads/deadbeef_etc_passwd.png" = "static/uploads/" ++ name
    /\ contains "/" name = false
    /\ startswith_char "." name = false
    /\ name <> "".
Proof.
  apply (uploads_stay_in_folder
           (post_request [("title", "Hello")]
              (Some (sample_file "../../etc/passwd.png")))
           sample_environ empty_world).
  vm_compute. intros H. discriminate H.
Defined.

(** X10.  A stored post is always found: in a table without repeated keys,
    the lookup by the key of a stored row returns that row, and
    [post_detail] answers with the detail page, never with 404. *)
Theorem stored_post_is_found markdown w p :
  NoDup (map post_id (posts w)) ->
  p ∈ posts w ->
  db_session_get w (post_id p) = Some p
  /\ status_code (post_detail markdown (post_id p) w) = 200%nat.
Proof.
  intros Hnd Hin.
  assert (db_session_get w (post_id p) = Some p) as Hget.
  { unfold db_session_get. induction (posts w) as [|q table IH]; simpl.
    - by apply elem_of_nil in Hin.
    - simpl in Hnd. apply NoDup_cons in Hnd as [Hq Hnd].
      apply elem_of_cons in Hin as [->|Hin].
      + by rewrite Nat.eqb_refl.
      + destruct (Nat.eqb (post_id q) (post_id p)) eqn:E; [|by apply IH].
        apply Nat.eqb_eq in E. exfalso. apply Hq. rewrite E.
        apply list_elem_of_fmap. by exists p. }
  split; [done|]. unfold post_detail. by rewrite Hget.
Qed.

Lemma stored_post_is_found_witness :
  db_session_get three_posts (post_id (sample_post 2 30)) = Some (sample_post 2 30)
  /\ status_code (post_detail sample_markdown (post_id (sample_post 2 30)) three_posts)
     = 200%nat.
Proof.
  apply stored_post_is_found.
  - vm_compute. repeat constructor; set_unfold; intros H;
      repeat destruct H as [H|H]; try discriminate H; try done.
  - unfold three_posts. simpl. set_unfold. right. by left.
Defined.
